(** * Transaction inputs of the node: resolution and serialization

    A shallow embedding of [lib/primitives/input.js] (the [Input] object:
    prevout, script, sequence, witness) together with the pieces of the
    buffer writer / reader, the outpoint and the script containers that its
    methods call.  JavaScript numbers that hold integers are [Z], buffers are
    [list byte], a method that can raise returns in the [Exc] monad, a method
    that mutates [this] takes the receiver and returns the new one, and a
    method that may end in a bare [return;] returns an [option], [None]
    standing for "no value" ([undefined], the specification's [null]). *)

From Stdlib Require Import ZArith List String Ascii Bool Lia.
From Stdlib Require Import Strings.Byte DecimalString.
Import ListNotations.
Local Open Scope Z_scope.

(* ------------------------------------------------------------------ *)
(** ** Exceptions *)

Inductive Error : Type :=
| AssertionError   (* a failed [assert(...)] *)
| TypeError.       (* a property read on [undefined] *)

Inductive Exc (A : Type) : Type :=
| Ok (a : A)
| Throw (e : Error).

Arguments Ok {A} a.
Arguments Throw {A} e.

Definition bind {A B : Type} (c : Exc A) (k : A -> Exc B) : Exc B :=
  match c with
  | Ok a => k a
  | Throw e => Throw e
  end.

Definition assert (b : bool) : Exc unit :=
  if b then Ok tt else Throw AssertionError.

Declare Scope exc_scope.
Delimit Scope exc_scope with exc.
Notation "x <- c ;; k" := (bind c (fun x => k))
  (at level 61, c at next level, right associativity) : exc_scope.
Notation "c ;;; k" := (bind c (fun _ => k))
  (at level 61, right associativity) : exc_scope.
Local Open Scope exc_scope.

Definition raises {A : Type} (c : Exc A) : Prop :=
  exists e, c = Throw e.

(* ------------------------------------------------------------------ *)
(** ** Bytes and little-endian integers *)

Definition byte_of_Z (z : Z) : byte :=
  match Byte.of_N (Z.to_N (Z.land z 0xff)) with
  | Some b => b
  | None => x00
  end.

Definition Z_of_byte (b : byte) : Z := Z.of_N (Byte.to_N b).

(** [n] bytes of [v], least significant first; bits above [8 * n] are
    dropped, which is the wrap-around of [writeUInt32LE(v, off, true)]. *)
Fixpoint le_bytes (n : nat) (v : Z) : list byte :=
  match n with
  | O => []
  | S n' => byte_of_Z v :: le_bytes n' (Z.shiftr v 8)
  end.

Fixpoint le_value (bs : list byte) : Z :=
  match bs with
  | [] => 0
  | b :: rest => Z.lor (Z_of_byte b) (Z.shiftl (le_value rest) 8)
  end.

(** Modelled from the spec: [encoding.sizeVarint] and [encoding.writeVarint]
    (lib/utils/encoding.js) are not among the sources verified here; the
    spec's "variable-width integer prefix" is the protocol's compact size:
    one byte below 0xfd, else a marker byte 0xfd / 0xfe / 0xff followed by
    2 / 4 / 8 little-endian bytes. *)
Definition sizeVarint (n : Z) : Z :=
  if n <? 0xfd then 1
  else if n <=? 0xffff then 3
  else if n <=? 0xffffffff then 5
  else 9.

(** Modelled from the spec: the bytes of the compact size of [n]. *)
Definition varint_bytes (n : Z) : list byte :=
  if n <? 0xfd then le_bytes 1 n
  else if n <=? 0xffff then xfd :: le_bytes 2 n
  else if n <=? 0xffffffff then xfe :: le_bytes 4 n
  else xff :: le_bytes 8 n.

Definition blen (bs : list byte) : Z := Z.of_nat (List.length bs).

(** Modelled from the spec: [encoding.sizeVarBytes], the size of a
    length-prefixed byte string: prefix plus payload. *)
Definition sizeVarBytes (bs : list byte) : Z :=
  sizeVarint (blen bs) + blen bs.

(* ------------------------------------------------------------------ *)
(** ** StaticWriter *)

(** Modelled from the spec: [StaticWriter] (lib/utils/staticwriter.js) is not
    among the sources verified here.  It allocates [size] bytes, every write appends at
    the write offset, and [render] hands the buffer out after asserting that
    exactly [size] bytes were written. *)
Record StaticWriter : Type := mkWriter {
  bw_size : Z;
  bw_data : list byte
}.

Definition StaticWriter_new (size : Z) : StaticWriter :=
  mkWriter size [].

Definition writeBytes (bs : list byte) (bw : StaticWriter) : StaticWriter :=
  mkWriter (bw_size bw) (bw_data bw ++ bs).

(** Modelled from the spec: "4 bytes, little-endian unsigned". *)
Definition writeU32 (v : Z) (bw : StaticWriter) : StaticWriter :=
  writeBytes (le_bytes 4 v) bw.

(** Modelled from the spec: "32 bytes, fixed"; another length is refused. *)
Definition writeHash (h : list byte) (bw : StaticWriter) : Exc StaticWriter :=
  assert (blen h =? 32) ;;;
  Ok (writeBytes h bw).

Definition writeVarint (n : Z) (bw : StaticWriter) : StaticWriter :=
  writeBytes (varint_bytes n) bw.

(** Modelled from the spec: "variable-length byte string, length-prefixed". *)
Definition writeVarBytes (bs : list byte) (bw : StaticWriter) : StaticWriter :=
  writeBytes bs (writeVarint (blen bs) bw).

Definition render (bw : StaticWriter) : Exc (list byte) :=
  assert (blen (bw_data bw) =? bw_size bw) ;;;
  Ok (bw_data bw).

(* ------------------------------------------------------------------ *)
(** ** BufferReader *)

(** Modelled from the spec: [BufferReader] (lib/utils/reader.js) is not
    among the sources verified here.  It keeps the buffer and a read offset;
    every read asserts that the bytes it needs are there ("a short/truncated
    buffer fails with a decode error") and advances the offset. *)
Record BufferReader : Type := mkReader {
  br_data : list byte;
  br_offset : nat
}.

Definition BufferReader_new (data : list byte) : BufferReader :=
  mkReader data 0.

Definition Reader (A : Type) : Type := BufferReader -> Exc (A * BufferReader).

Definition readBytes (n : nat) : Reader (list byte) := fun br =>
  assert (Nat.leb (br_offset br + n) (List.length (br_data br))) ;;;
  Ok (firstn n (skipn (br_offset br) (br_data br)),
      mkReader (br_data br) (br_offset br + n)).

Definition readHash : Reader (list byte) := readBytes 32.

(** An unsigned little-endian integer of [k] bytes. *)
Definition readUInt (k : nat) : Reader Z := fun br =>
  r <- readBytes k br ;; Ok (le_value (fst r), snd r).

Definition readU8 : Reader Z := readUInt 1.
Definition readU16 : Reader Z := readUInt 2.
Definition readU32 : Reader Z := readUInt 4.
Definition readU64 : Reader Z := readUInt 8.

(** Modelled from the spec: the compact size is read back from its marker
    byte. *)
Definition readVarint : Reader Z := fun br =>
  r <- readU8 br ;;
  if fst r =? 0xff then readU64 (snd r)
  else if fst r =? 0xfe then readU32 (snd r)
  else if fst r =? 0xfd then readU16 (snd r)
  else Ok r.

Definition readVarBytes : Reader (list byte) := fun br =>
  r <- readVarint br ;;
  readBytes (Z.to_nat (fst r)) (snd r).

(** The reader stands before the bytes [l]: they are what is left of the
    buffer from the read offset on. *)
Definition unread (br : BufferReader) (l : list byte) : Prop :=
  (br_offset br <= List.length (br_data br))%nat /\
  skipn (br_offset br) (br_data br) = l.

(* ------------------------------------------------------------------ *)
(** ** Outpoint, Script and Witness containers *)

(** Modelled from the spec: [Outpoint] (lib/primitives/outpoint.js) is not
    among the sources verified here.  Data model: a 32-byte hash and an
    unsigned 32-bit index; it is null exactly when the hash is all-zero and
    the index is 0xffffffff; a new outpoint is the null one; on the wire it is
    the hash followed by the index, little-endian.  The hash is kept as the
    32 bytes that its hex string stands for. *)
Record Outpoint : Type := mkOutpoint {
  hash : list byte;
  index : Z
}.

Definition NULL_HASH : list byte := repeat x00 32.

Definition bytes_eqb (a b : list byte) : bool :=
  if list_eq_dec Byte.byte_eq_dec a b then true else false.

Definition Outpoint_new : Outpoint := mkOutpoint NULL_HASH 0xffffffff.

Definition Outpoint_isNull (o : Outpoint) : bool :=
  (index o =? 0xffffffff) && bytes_eqb (hash o) NULL_HASH.

Definition Outpoint_toWriter (o : Outpoint) (bw : StaticWriter) : Exc StaticWriter :=
  bw1 <- writeHash (hash o) bw ;;
  Ok (writeU32 (index o) bw1).

Definition Outpoint_fromReader (this : Outpoint) : Reader Outpoint := fun br =>
  h <- readHash br ;;
  i <- readU32 (snd h) ;;
  Ok (mkOutpoint (fst h) (fst i), snd i).

(** Modelled from the spec: [Script] (lib/script/script.js) is not among the
    sources verified here: an "opaque byte-compiled program".  Only its raw
    bytes are kept; [toRaw] returns them, [fromRaw] replaces them and
    [getVarSize] is the size of their length-prefixed form. *)
Record Script : Type := mkScript {
  raw : list byte
}.

Definition Script_new : Script := mkScript [].
Definition Script_toRaw (s : Script) : list byte := raw s.
Definition Script_fromRaw (this : Script) (data : list byte) : Script := mkScript data.
Definition Script_getVarSize (s : Script) : Z := sizeVarBytes (raw s).

(** Modelled from the spec: [Witness] (lib/script/witness.js) is not among
    the sources verified here: an "ordered sequence of byte items", empty
    when new. *)
Record Witness : Type := mkWitness {
  items : list (list byte)
}.

Definition Witness_new : Witness := mkWitness [].

(* ------------------------------------------------------------------ *)
(** ** Input: data and binary codec (input.js) *)

Record Input : Type := mkInput {
  prevout : Outpoint;
  script : Script;
  sequence : Z;
  witness : Witness
}.

(** [new Input()] without options. *)
Definition Input_new : Input :=
  mkInput Outpoint_new Script_new 0xffffffff Witness_new.

Definition isFinal (this : Input) : bool := sequence this =? 0xffffffff.

Definition isRBF (this : Input) : bool := sequence this <? 0xfffffffe.

Definition isCoinbase (this : Input) : bool := Outpoint_isNull (prevout this).

Definition getSize (this : Input) : Z := 40 + Script_getVarSize (script this).

Definition toWriter (this : Input) (bw : StaticWriter) : Exc StaticWriter :=
  bw1 <- Outpoint_toWriter (prevout this) bw ;;
  Ok (writeU32 (sequence this) (writeVarBytes (Script_toRaw (script this)) bw1)).

Definition toRaw (this : Input) : Exc (list byte) :=
  let size := getSize this in
  bw <- toWriter this (StaticWriter_new size) ;;
  render bw.

Definition fromReader (this : Input) : Reader Input := fun br =>
  p <- Outpoint_fromReader (prevout this) br ;;
  s <- readVarBytes (snd p) ;;
  q <- readU32 (snd s) ;;
  Ok (mkInput (fst p) (Script_fromRaw (script this) (fst s)) (fst q) (witness this),
      snd q).

(** [Input.prototype.fromRaw]: the reader is dropped once the fields are read. *)
Definition fromRaw (this : Input) (data : list byte) : Exc Input :=
  r <- fromReader this (BufferReader_new data) ;;
  Ok (fst r).

(** [Input.fromRaw(data)] on a buffer: [new Input().fromRaw(data)]. *)
Definition Input_fromRaw (data : list byte) : Exc Input :=
  fromRaw Input_new data.

(* ------------------------------------------------------------------ *)
(** ** JavaScript values *)

(** The values that reach [fromJSON] and leave [getJSON].  A finite number is
    modelled by the integer it holds (fractions are left out); [NaN] and the
    infinities are kept apart because [util.isNumber] tells them from the
    finite ones. *)
#[warnings="-register-all"] Inductive JsVal : Type :=
| JUndefined
| JNull
| JBool (b : bool)
| JNum (z : Z)
| JNaN
| JInfinity (negative : bool)
| JStr (s : string)
| JObj (props : list (string * JsVal)).

(** [if (v)] / [assert(v)]. *)
Definition truthy (v : JsVal) : bool :=
  match v with
  | JUndefined | JNull | JNaN => false
  | JBool b => b
  | JNum z => negb (z =? 0)
  | JInfinity _ => true
  | JStr s => negb (String.eqb s "")
  | JObj _ => true
  end.

Fixpoint lookup_prop (k : string) (props : list (string * JsVal)) : JsVal :=
  match props with
  | [] => JUndefined
  | (k', v) :: rest => if String.eqb k k' then v else lookup_prop k rest
  end.

(** [v.k] for a [v] that is neither [null] nor [undefined]: a missing
    property reads as [undefined]. *)
Definition get_prop (v : JsVal) (k : string) : JsVal :=
  match v with
  | JObj props => lookup_prop k props
  | _ => JUndefined
  end.

(** Modelled from the spec: [util.isNumber] (lib/utils/util.js) is not among
    the sources verified here, and the specification does not describe it.
    The model is the test that its name states at the call sites in
    [input.js], the one of a finite number:
    [typeof obj === 'number' && isFinite(obj)]. *)
Definition util_isNumber (v : JsVal) : bool :=
  match v with
  | JNum _ => true
  | _ => false
  end.

(** The integer held by a finite number. *)
Definition number_value (v : JsVal) : Z :=
  match v with
  | JNum z => z
  | _ => 0
  end.

(** [String.prototype.toLowerCase] on ASCII names. *)
Definition lower_ascii (c : ascii) : ascii :=
  let n := nat_of_ascii c in
  if (Nat.leb 65 n && Nat.leb n 90)%bool then ascii_of_nat (n + 32) else c.

Fixpoint toLowerCase (s : string) : string :=
  match s with
  | EmptyString => EmptyString
  | String c rest => String (lower_ascii c) (toLowerCase rest)
  end.

(* ------------------------------------------------------------------ *)
(** ** Collaborators of the Input *)

Module Cap.

(** The query surface that [Script] and [Witness] both offer to the Input
    (spending-side classification); a type tag is the number that indexes
    [constants.scriptTypesByVal]. *)
Class Classifiable (Address T : Type) : Type := {
  getInputType : T -> Z;
  isScripthashInput : T -> bool;
  getRedeem : T -> option Script;
  getInputAddress : T -> option Address
}.

(** The JSON codec of a part of the Input: [toJSON()] and the injecting
    [fromJSON(json)], which is given the receiver and may raise. *)
Class JsonCodec (T : Type) : Type := {
  toJSON : T -> JsVal;
  fromJSON : T -> JsVal -> Exc T
}.

End Cap.

(** Everything [input.js] requires from other modules and that is decided
    outside of it: the script type table, the classification of scripts and
    witnesses, coins, addresses, networks, and the JSON codecs of the parts. *)
Class Collaborators : Type := {
  Address : Type;
  Coin : Type;
  Network : Type;
  NetworkArg : Type;
  (* protocol/constants *)
  scriptTypesByVal : Z -> option string;
  (* script/script, script/witness *)
  Script_cls :: Cap.Classifiable Address Script;
  Witness_cls :: Cap.Classifiable Address Witness;
  Script_isScripthash : Script -> bool;
  Script_isWitnessScripthash : Script -> bool;
  Script_getType : Script -> Z;
  (* primitives/coin, primitives/address, protocol/network *)
  Coin_getType : Coin -> string;
  Coin_getAddress : Coin -> option Address;
  Coin_script : Coin -> Script;
  Coin_getJSON : Coin -> Network -> bool -> JsVal;
  Address_toBase58 : Address -> Network -> string;
  Network_get : option NetworkArg -> Network;
  (* JSON codecs of the parts *)
  Outpoint_json :: Cap.JsonCodec Outpoint;
  Script_json :: Cap.JsonCodec Script;
  Witness_json :: Cap.JsonCodec Witness
}.

(** What a JSON codec must satisfy for the round trip: decoding into a new
    object what [toJSON] made of a valid one gives it back. *)
Class JsonLaws (T : Type) {C : Cap.JsonCodec T} (fresh : T) (valid : T -> Prop) : Prop := {
  fromJSON_toJSON : forall t : T, valid t -> Cap.fromJSON fresh (Cap.toJSON t) = Ok t
}.

(* ------------------------------------------------------------------ *)
(** ** Input: resolution and JSON codec (input.js) *)

Section InputMethods.

Context {W : Collaborators}.

(** [constants.scriptTypesByVal[type].toLowerCase()]: reading
    [toLowerCase] off a missing entry raises. *)
Definition typeName (type : Z) : Exc string :=
  match scriptTypesByVal type with
  | Some name => Ok (toLowerCase name)
  | None => Throw TypeError
  end.

Definition getType (this : Input) (coin : option Coin) : Exc string :=
  if isCoinbase this then Ok "coinbase"%string
  else match coin with
       | Some c => Ok (Coin_getType c)
       | None =>
           let type :=
             if Nat.ltb 0 (List.length (items (witness this)))
             then Cap.getInputType (witness this)
             else Cap.getInputType (script this) in
           typeName type
       end.

Definition getRedeem (this : Input) (coin : option Coin) : option Script :=
  if isCoinbase this then None
  else match coin with
       | None =>
           if Cap.isScripthashInput (witness this) then Cap.getRedeem (witness this)
           else if Cap.isScripthashInput (script this) then Cap.getRedeem (script this)
           else None
       | Some c =>
           let redeem : option Script := None in
           let prev : option Script := Some (Coin_script c) in
           let '(prev, redeem) :=
             if Script_isScripthash (Coin_script c)
             then (Cap.getRedeem (script this), Cap.getRedeem (script this))
             else (prev, redeem) in
           let '(prev, redeem) :=
             match prev with
             | Some p =>
                 if Script_isWitnessScripthash p
                 then (Cap.getRedeem (witness this), Cap.getRedeem (witness this))
                 else (prev, redeem)
             | None => (prev, redeem)
             end in
           redeem
       end.

(** The specification's words for a coin whose output script is a
    script-hash (section 4.3): "the deepest successfully resolved redeem
    script", the second unwrap overwriting the first-level redeem "only when
    the second unwrap succeeds".  Kept apart from [getRedeem], to be compared
    with it. *)
Definition deepest_resolved_redeem (this : Input) : option Script :=
  match Cap.getRedeem (script this) with
  | None => None
  | Some first =>
      if Script_isWitnessScripthash first
      then match Cap.getRedeem (witness this) with
           | Some second => Some second
           | None => Some first
           end
      else Some first
  end.

Definition getSubtype (this : Input) (coin : option Coin) : Exc (option string) :=
  if isCoinbase this then Ok None
  else match getRedeem this coin with
       | None => Ok None
       | Some redeem =>
           name <- typeName (Script_getType redeem) ;;
           Ok (Some name)
       end.

Definition getAddress (this : Input) (coin : option Coin) : option Address :=
  if isCoinbase this then None
  else match coin with
       | Some c => Coin_getAddress c
       | None =>
           if Nat.ltb 0 (List.length (items (witness this)))
           then Cap.getInputAddress (witness this)
           else Cap.getInputAddress (script this)
       end.

Definition getJSON (this : Input) (network : option NetworkArg)
    (coin : option Coin) : JsVal :=
  let network := Network_get network in
  let address :=
    match coin with
    | None =>
        match getAddress this None with
        | Some address => JStr (Address_toBase58 address network)
        | None => JUndefined
        end
    | Some _ => JUndefined
    end in
  JObj [ ("prevout"%string, Cap.toJSON (prevout this));
         ("script"%string, Cap.toJSON (script this));
         ("witness"%string, Cap.toJSON (witness this));
         ("sequence"%string, JNum (sequence this));
         ("address"%string, address);
         ("coin"%string,
           match coin with
           | Some c => Coin_getJSON c network true
           | None => JUndefined
           end) ].

(** Both parameters are dropped: the body is [return this.getJSON();]. *)
Definition toJSON (this : Input) (network : option NetworkArg)
    (coin : option Coin) : JsVal :=
  getJSON this None None.

Definition fromJSON (this : Input) (json : JsVal) : Exc Input :=
  assert (truthy json) ;;;
  assert (util_isNumber (get_prop json "sequence")) ;;;
  p <- Cap.fromJSON (prevout this) (get_prop json "prevout") ;;
  s <- Cap.fromJSON (script this) (get_prop json "script") ;;
  w <- Cap.fromJSON (witness this) (get_prop json "witness") ;;
  Ok (mkInput p s (number_value (get_prop json "sequence")) w).

(** [Input.fromJSON(json)]: [new Input().fromJSON(json)]. *)
Definition Input_fromJSON (json : JsVal) : Exc Input :=
  fromJSON Input_new json.

End InputMethods.

(* ------------------------------------------------------------------ *)
(** ** A reference implementation of the collaborators *)

(** Modelled from the spec: none of the collaborators' code is among the
    sources verified here.  This module gives one conforming implementation
    of the contracts of sections 3, 4.2 and 4.5 of the specification, on
    which the Input's methods can be run: hex strings for script and witness
    JSON, the reversed hex hash for the outpoint, the structural predicates
    for script-hash and witness-script-hash shapes, and "last push" /
    "last item" redeem extraction.  Patterns it does not recognise are "nonstandard".
    The digest and the text encoding of addresses are parameters. *)
Module Reference.

Definition hex_digit (n : Z) : ascii :=
  if n <? 10 then ascii_of_nat (Z.to_nat (48 + n))
  else ascii_of_nat (Z.to_nat (87 + n)).

Definition hex_value (c : ascii) : option Z :=
  let n := Z.of_nat (nat_of_ascii c) in
  if (48 <=? n) && (n <=? 57) then Some (n - 48)
  else if (97 <=? n) && (n <=? 102) then Some (n - 87)
  else if (65 <=? n) && (n <=? 70) then Some (n - 55)
  else None.

Fixpoint hex_of_bytes (bs : list byte) : string :=
  match bs with
  | [] => EmptyString
  | b :: rest =>
      String (hex_digit (Z.shiftr (Z_of_byte b) 4))
        (String (hex_digit (Z.land (Z_of_byte b) 0xf)) (hex_of_bytes rest))
  end.

(** Strict decoding: an odd length or a character that is not a hex digit is
    refused. *)
Fixpoint bytes_of_hex (s : string) : option (list byte) :=
  match s with
  | EmptyString => Some []
  | String _ EmptyString => None
  | String c1 (String c2 rest) =>
      match hex_value c1, hex_value c2, bytes_of_hex rest with
      | Some h, Some l, Some bs => Some (byte_of_Z (Z.lor (Z.shiftl h 4) l) :: bs)
      | _, _, _ => None
      end
  end.

Definition isUInt32 (v : JsVal) : bool :=
  match v with
  | JNum z => (0 <=? z) && (z <=? 0xffffffff)
  | _ => false
  end.

(* outpoint *)

Definition Outpoint_toJSON (o : Outpoint) : JsVal :=
  JObj [ ("hash"%string, JStr (hex_of_bytes (rev (hash o))));
         ("index"%string, JNum (index o)) ].

Definition Outpoint_fromJSON (this : Outpoint) (json : JsVal) : Exc Outpoint :=
  assert (truthy json) ;;;
  assert (isUInt32 (get_prop json "index")) ;;;
  match get_prop json "hash" with
  | JStr s =>
      match bytes_of_hex s with
      | Some bs => Ok (mkOutpoint (rev bs) (number_value (get_prop json "index")))
      | None => Throw AssertionError
      end
  | _ => Throw AssertionError
  end.

(* script *)

Definition Script_toJSON (s : Script) : JsVal := JStr (hex_of_bytes (Script_toRaw s)).

Definition Script_fromJSON (this : Script) (json : JsVal) : Exc Script :=
  match json with
  | JStr s =>
      match bytes_of_hex s with
      | Some bs => Ok (Script_fromRaw this bs)
      | None => Throw AssertionError
      end
  | _ => Throw AssertionError
  end.

(** The pushes of a push-only script: direct pushes (opcodes 0x00..0x4b) and
    OP_PUSHDATA1; anything else is not push-only. *)
Fixpoint pushes (fuel : nat) (bs : list byte) : option (list (list byte)) :=
  match fuel with
  | O => match bs with [] => Some [] | _ => None end
  | S fuel' =>
      match bs with
      | [] => Some []
      | op :: rest =>
          let n := Z_of_byte op in
          if n <=? 0x4b then
            if Nat.leb (Z.to_nat n) (List.length rest) then
              option_map (cons (firstn (Z.to_nat n) rest))
                         (pushes fuel' (skipn (Z.to_nat n) rest))
            else None
          else if n =? 0x4c then
            match rest with
            | [] => None
            | l :: rest' =>
                let m := Z.to_nat (Z_of_byte l) in
                if Nat.leb m (List.length rest') then
                  option_map (cons (firstn m rest'))
                             (pushes fuel' (skipn m rest'))
                else None
            end
          else None
      end
  end.

Definition Script_getRedeem (s : Script) : option Script :=
  match pushes (List.length (raw s)) (raw s) with
  | Some ps =>
      match rev ps with
      | data :: _ => Some (mkScript data)
      | [] => None
      end
  | None => None
  end.

Definition Script_isScripthashInput (s : Script) : bool :=
  match Script_getRedeem s with
  | Some r => Nat.ltb 0 (List.length (raw r))
  | None => false
  end.

(** OP_HASH160 <20 bytes> OP_EQUAL. *)
Definition isScripthash (s : Script) : bool :=
  match raw s with
  | op :: len :: rest =>
      (blen (raw s) =? 23) && (Z_of_byte op =? 0xa9) && (Z_of_byte len =? 0x14)
      && (Z_of_byte (last rest x00) =? 0x87)
  | _ => false
  end.

(** OP_0 <32 bytes>. *)
Definition isWitnessScripthash (s : Script) : bool :=
  match raw s with
  | op :: len :: _ =>
      (blen (raw s) =? 34) && (Z_of_byte op =? 0x00) && (Z_of_byte len =? 0x20)
  | _ => false
  end.

Definition NONSTANDARD : Z := 0.
Definition SCRIPTHASH : Z := 3.
Definition WITNESSSCRIPTHASH : Z := 0x81.

Definition typesByVal (type : Z) : option string :=
  if type =? 0 then Some "NONSTANDARD"%string
  else if type =? 1 then Some "PUBKEY"%string
  else if type =? 2 then Some "PUBKEYHASH"%string
  else if type =? 3 then Some "SCRIPTHASH"%string
  else if type =? 4 then Some "MULTISIG"%string
  else if type =? 0x81 then Some "WITNESSSCRIPTHASH"%string
  else if type =? 0x82 then Some "WITNESSPUBKEYHASH"%string
  else None.

Definition outputType (s : Script) : Z :=
  if isScripthash s then SCRIPTHASH
  else if isWitnessScripthash s then WITNESSSCRIPTHASH
  else NONSTANDARD.

Definition Script_getInputType (s : Script) : Z :=
  if Script_isScripthashInput s then SCRIPTHASH else NONSTANDARD.

(* witness *)

Definition Witness_toRaw (w : Witness) : list byte :=
  varint_bytes (Z.of_nat (List.length (items w)))
  ++ List.concat (map (fun item => varint_bytes (blen item) ++ item) (items w)).

(** The loop of [Witness.fromReader]: [count] length-prefixed items are read
    and pushed onto the items read so far. *)
Fixpoint read_items (count : nat) (acc : list (list byte)) : Reader (list (list byte)) :=
  fun br =>
    match count with
    | O => Ok (acc, br)
    | S count' =>
        r <- readVarBytes br ;;
        read_items count' (acc ++ [fst r]) (snd r)
    end.

Definition Witness_fromRaw (this : Witness) (data : list byte) : Exc Witness :=
  c <- readVarint (BufferReader_new data) ;;
  r <- read_items (Z.to_nat (fst c)) (items this) (snd c) ;;
  Ok (mkWitness (fst r)).

Definition Witness_toJSON (w : Witness) : JsVal := JStr (hex_of_bytes (Witness_toRaw w)).

Definition Witness_fromJSON (this : Witness) (json : JsVal) : Exc Witness :=
  match json with
  | JStr s =>
      match bytes_of_hex s with
      | Some bs => Witness_fromRaw this bs
      | None => Throw AssertionError
      end
  | _ => Throw AssertionError
  end.

Definition Witness_getRedeem (w : Witness) : option Script :=
  match rev (items w) with
  | data :: _ => Some (mkScript data)
  | [] => None
  end.

Definition Witness_isScripthashInput (w : Witness) : bool :=
  Nat.ltb 0 (List.length (items w)).

Definition Witness_getInputType (w : Witness) : Z :=
  if Witness_isScripthashInput w then WITNESSSCRIPTHASH else NONSTANDARD.

(* addresses, coins, networks *)

Record Address_t : Type := mkAddress {
  addr_type : Z;
  addr_hash : list byte
}.

Inductive Network_t : Type := main | testnet.

Record Coin_t : Type := mkCoin {
  coin_value : Z;
  coin_script : Script
}.

Definition networkGet (arg : option Network_t) : Network_t :=
  match arg with
  | Some n => n
  | None => main
  end.

Definition Address_fromScript (s : Script) : option Address_t :=
  if isScripthash s then Some (mkAddress SCRIPTHASH (firstn 20 (skipn 2 (raw s))))
  else if isWitnessScripthash s
       then Some (mkAddress WITNESSSCRIPTHASH (skipn 2 (raw s)))
  else None.

(** The objects that the JSON codecs above give back unchanged: an outpoint
    with a 32-bit index, any script, a witness whose count and item lengths
    fit their length prefixes. *)
Definition valid_outpoint (o : Outpoint) : Prop := 0 <= index o <= 0xffffffff.

Definition valid_script (s : Script) : Prop := True.

Definition valid_witness (w : Witness) : Prop :=
  Z.of_nat (List.length (items w)) < 2 ^ 64
  /\ Forall (fun item => blen item < 2 ^ 64) (items w).

Section Digests.

Variable hash160 : list byte -> list byte.
Variable sha256 : list byte -> list byte.
Variable base58 : Network_t -> Address_t -> string.

Definition Script_getInputAddress (s : Script) : option Address_t :=
  match Script_getRedeem s with
  | Some r =>
      if Script_isScripthashInput s then Some (mkAddress SCRIPTHASH (hash160 (raw r)))
      else None
  | None => None
  end.

Definition Witness_getInputAddress (w : Witness) : option Address_t :=
  match Witness_getRedeem w with
  | Some r => Some (mkAddress WITNESSSCRIPTHASH (sha256 (raw r)))
  | None => None
  end.

Definition coinType (c : Coin_t) : string :=
  match typesByVal (outputType (coin_script c)) with
  | Some name => toLowerCase name
  | None => "nonstandard"%string
  end.

Definition coinJSON (c : Coin_t) (network : Network_t) (details : bool) : JsVal :=
  JObj [ ("value"%string, JNum (coin_value c));
         ("script"%string, Script_toJSON (coin_script c));
         ("address"%string,
           match Address_fromScript (coin_script c) with
           | Some a => JStr (base58 network a)
           | None => JNull
           end) ].

Definition collaborators : Collaborators := {|
  Address := Address_t;
  Coin := Coin_t;
  Network := Network_t;
  NetworkArg := Network_t;
  scriptTypesByVal := typesByVal;
  Script_cls := {|
    Cap.getInputType := Script_getInputType;
    Cap.isScripthashInput := Script_isScripthashInput;
    Cap.getRedeem := Script_getRedeem;
    Cap.getInputAddress := Script_getInputAddress |};
  Witness_cls := {|
    Cap.getInputType := Witness_getInputType;
    Cap.isScripthashInput := Witness_isScripthashInput;
    Cap.getRedeem := Witness_getRedeem;
    Cap.getInputAddress := Witness_getInputAddress |};
  Script_isScripthash := isScripthash;
  Script_isWitnessScripthash := isWitnessScripthash;
  Script_getType := outputType;
  Coin_getType := coinType;
  Coin_getAddress := fun c => Address_fromScript (coin_script c);
  Coin_script := coin_script;
  Coin_getJSON := coinJSON;
  Address_toBase58 := fun a n => base58 n a;
  Network_get := networkGet;
  Outpoint_json := {| Cap.toJSON := Outpoint_toJSON; Cap.fromJSON := Outpoint_fromJSON |};
  Script_json := {| Cap.toJSON := Script_toJSON; Cap.fromJSON := Script_fromJSON |};
  Witness_json := {| Cap.toJSON := Witness_toJSON; Cap.fromJSON := Witness_fromJSON |}
|}.

End Digests.

End Reference.

(* ------------------------------------------------------------------ *)
(** ** Sample data *)

(** A spend of a script-hash output that wraps a witness-script-hash program
    that wraps a 2-of-3 multisig script, as the reference implementation
    reads it.  The digests are stand-ins. *)
Module Sample.

Definition pubkey (b : byte) : list byte := x02 :: repeat b 32.

(** OP_2 <key> <key> <key> OP_3 OP_CHECKMULTISIG. *)
Definition multisig : Script :=
  mkScript ([x52] ++ (x21 :: pubkey xa1) ++ (x21 :: pubkey xa2)
              ++ (x21 :: pubkey xa3) ++ [x53; xae]).

(** OP_0 <32 bytes>. *)
Definition program : Script := mkScript (x00 :: x20 :: repeat xbb 32).

(** OP_HASH160 <20 bytes> OP_EQUAL. *)
Definition output : Script := mkScript (xa9 :: x14 :: repeat xcc 20 ++ [x87]).

Definition coin : Reference.Coin_t := Reference.mkCoin 50000 output.

Definition signature (b : byte) : list byte := x30 :: repeat b 70 ++ [x01].

Definition input : Input :=
  mkInput (mkOutpoint (repeat x11 32) 1)
          (mkScript (x22 :: raw program))
          0xfffffffe
          (mkWitness [ []; signature xd1; signature xd2; raw multisig ]).

(** The same spend before it is signed: no witness yet. *)
Definition unsigned : Input :=
  mkInput (prevout input) (script input) (sequence input) Witness_new.

(** A spend of a script-hash output that wraps the multisig script directly:
    OP_PUSHDATA1 <length> <script>. *)
Definition direct : Input :=
  mkInput (prevout input)
          (mkScript (x4c :: byte_of_Z (blen (raw multisig)) :: raw multisig))
          (sequence input) Witness_new.

(** A coinbase input: null prevout, arbitrary script. *)
Definition coinbase : Input :=
  mkInput Outpoint_new (mkScript [x03; x01; x02; x03]) 0xffffffff Witness_new.

(** A JSON object for [fromJSON] whose sequence is a number but not an
    unsigned one. *)
Definition negative_sequence : JsVal :=
  JObj [ ("prevout"%string,
           JObj [ ("hash"%string,
                    JStr "2222222222222222222222222222222222222222222222222222222222222222");
                  ("index"%string, JNum 0) ]);
         ("script"%string, JStr "51");
         ("witness"%string, JStr "00");
         ("sequence"%string, JNum (-1)) ].

Definition world : Collaborators :=
  Reference.collaborators (firstn 20) (firstn 32)
    (fun _ a => Reference.hex_of_bytes (Reference.addr_hash a)).

End Sample.

(* ------------------------------------------------------------------ *)
(** ** Input: construction, formatting and address hash (input.js) *)

(** [Input.fromReader(br)]: [new Input().fromReader(br)]. *)
Definition Input_fromReader : Reader Input := fromReader Input_new.

Module Part.

(** The injecting [fromOptions(options)] of a part of the Input, which is
    given the receiver and may raise. *)
Class FromOptions (T : Type) : Type := {
  fromOptions : T -> JsVal -> Exc T
}.

End Part.

(** [v != null]: neither [null] nor [undefined]. *)
Definition not_null (v : JsVal) : bool :=
  match v with
  | JUndefined | JNull => false
  | _ => true
  end.

Section InputConstruction.

Context {Po : Part.FromOptions Outpoint}.
Context {Ps : Part.FromOptions Script}.
Context {Pw : Part.FromOptions Witness}.

Definition fromOptions (this : Input) (options : JsVal) : Exc Input :=
  assert (truthy options) ;;;
  assert (truthy (get_prop options "prevout")) ;;;
  p <- Part.fromOptions (prevout this) (get_prop options "prevout") ;;
  s <- (if truthy (get_prop options "script")
        then Part.fromOptions (script this) (get_prop options "script")
        else Ok (script this)) ;;
  q <- (if not_null (get_prop options "sequence")
        then assert (util_isNumber (get_prop options "sequence")) ;;;
             Ok (number_value (get_prop options "sequence"))
        else Ok (sequence this)) ;;
  w <- (if truthy (get_prop options "witness")
        then Part.fromOptions (witness this) (get_prop options "witness")
        else Ok (witness this)) ;;
  Ok (mkInput p s q w).

(** [Input.fromOptions(options)]: [new Input().fromOptions(options)]. *)
Definition Input_fromOptions (options : JsVal) : Exc Input :=
  fromOptions Input_new options.

(** [new Input(options)]: the defaults, and [fromOptions] when [options] is
    truthy. *)
Definition Input_constructor (options : JsVal) : Exc Input :=
  if truthy options then fromOptions Input_new options else Ok Input_new.

End InputConstruction.

Section InputFromTX.

(** A transaction, as far as [fromTX] reads it: [tx.hash('hex')], kept as the
    bytes that the hex string stands for, and [tx.outputs.length]. *)
Variable TX : Type.
Variable TX_hash : TX -> list byte.
Variable TX_outputs_length : TX -> nat.

Definition fromTX (this : Input) (tx : TX) (index : Z) : Exc Input :=
  assert (index <? Z.of_nat (TX_outputs_length tx)) ;;;
  Ok (mkInput (mkOutpoint (TX_hash tx) index)
              (script this) (sequence this) (witness this)).

(** [Input.fromTX(tx, index)]: [new Input().fromTX(tx, index)]. *)
Definition Input_fromTX (tx : TX) (index : Z) : Exc Input :=
  fromTX Input_new tx index.

End InputFromTX.

(** The object that [format] builds; [None] in [fmt_coin] is its [null]. *)
Record Format {W : Collaborators} : Type := mkFormat {
  fmt_type : string;
  fmt_subtype : option string;
  fmt_address : option Address;
  fmt_script : Script;
  fmt_witness : Witness;
  fmt_redeem : option Script;
  fmt_sequence : Z;
  fmt_prevout : Outpoint;
  fmt_coin : option Coin
}.

Arguments mkFormat {W} _ _ _ _ _ _ _ _ _.

Section InputViews.

Context {W : Collaborators}.

(** The hash payload of an address in an encoding: [address.getHash(enc)]. *)
Variable Hash : Type.
Variable Enc : Type.
Variable Address_getHash : Address -> option Enc -> Hash.

Definition getHash (this : Input) (enc : option Enc) : option Hash :=
  match getAddress this None with
  | None => None
  | Some address => Some (Address_getHash address enc)
  end.

Definition format (this : Input) (coin : option Coin) : Exc Format :=
  type <- getType this coin ;;
  subtype <- getSubtype this coin ;;
  Ok (mkFormat type subtype (getAddress this coin) (script this) (witness this)
        (getRedeem this coin) (sequence this) (prevout this) coin).

Definition inspect (this : Input) : Exc Format := format this None.

End InputViews.

(* ------------------------------------------------------------------ *)
(** ** RPC client (lib/http/rpcclient.js) *)

(** [a || b]. *)
Definition js_or (a b : JsVal) : JsVal := if truthy a then a else b.

(** [typeof v === 'string']. *)
Definition is_string (v : JsVal) : bool :=
  match v with
  | JStr _ => true
  | _ => false
  end.

(** The text of an integer number in a string concatenation (below 10^21 in
    absolute value, where JavaScript prints all digits). *)
Definition number_text (z : Z) : string := NilZero.string_of_int (Z.to_int z).

(** The options object handed to [request.promise]. *)
Record Request : Type := mkRequest {
  rq_method : string;
  rq_uri : JsVal;
  rq_pool : bool;
  rq_json_method : JsVal;
  rq_json_params : JsVal;
  rq_json_id : Z;
  rq_auth_username : string;
  rq_auth_password : JsVal;
  rq_expect : string;
  rq_timeout : Z
}.

(** What [call] reads of the response. *)
Record Response : Type := mkResponse {
  statusCode : Z;
  body : JsVal
}.

(** How the promise of [call] settles; [Rejected m] is [throw new Error(m)],
    or the reason with which the request itself was rejected. *)
Inductive Settled : Type :=
| Resolved (value : JsVal)
| Rejected (reason : JsVal).

Section RPC.

(** [Network.get(...)] and the [rpcPort] of a network. *)
Variable Net : Type.
Variable get_network : JsVal -> Exc Net.
Variable rpcPort : Net -> Z.

Record RPCClient : Type := mkRPCClient {
  rpc_options : JsVal;
  rpc_network : Net;
  rpc_uri : JsVal;
  rpc_apiKey : JsVal;
  rpc_id : Z
}.

(** [new RPCClient(options)]. *)
Definition RPCClient_new (options : JsVal) : Exc RPCClient :=
  let options := if truthy options then options else JObj [] in
  let options :=
    if is_string options then JObj [("uri"%string, options)] else options in
  network <- get_network (get_prop options "network") ;;
  Ok (mkRPCClient options network
        (js_or (get_prop options "uri")
               (JStr ("http://localhost:" ++ number_text (rpcPort network))))
        (get_prop options "apiKey")
        0).

(** The request of [call], and the client once [this.id++] has run. *)
Definition call_request (this : RPCClient) (method params : JsVal)
    : Request * RPCClient :=
  (mkRequest "POST" (rpc_uri this) true method params (rpc_id this)
     "bitcoinrpc" (js_or (rpc_apiKey this) (JStr "")) "json" 10000,
   mkRPCClient (rpc_options this) (rpc_network this) (rpc_uri this)
     (rpc_apiKey this) (rpc_id this + 1)).

(** What [call] makes of the response. *)
Definition call_response (res : Response) : Settled :=
  if negb (truthy (body res)) then Resolved JUndefined
  else if statusCode res =? 400 then Resolved (get_prop (body res) "result")
  else if negb (statusCode res =? 200) then
    if truthy (get_prop (body res) "error")
    then Rejected (get_prop (get_prop (body res) "error") "message")
    else Rejected (JStr ("Status code: " ++ number_text (statusCode res)))
  else Resolved (get_prop (body res) "result").

(** The transport: [request.promise] resolves to a response or is rejected. *)
Variable transport : Request -> Response + JsVal.

Definition call (this : RPCClient) (method params : JsVal)
    : Settled * RPCClient :=
  let '(rq, this') := call_request this method params in
  (match transport rq with
   | inl res => call_response res
   | inr reason => Rejected reason
   end, this').

(** Calls made one after the other on the same client: every request with
    how it settled, and the client at the end. *)
Fixpoint calls (this : RPCClient) (todo : list (JsVal * JsVal))
    : list (Request * Settled) * RPCClient :=
  match todo with
  | [] => ([], this)
  | (method, params) :: rest =>
      let '(settled, this') := call this method params in
      let '(done, this'') := calls this' rest in
      ((fst (call_request this method params), settled) :: done, this'')
  end.

End RPC.

(* ------------------------------------------------------------------ *)
(** ** Readers and longer buffers *)

(** A read that succeeds stays inside the buffer, leaves the buffer as it
    is, and succeeds in the same way when more bytes follow the buffer. *)
Definition stable {A : Type} (R : Reader A) : Prop :=
  forall (br : BufferReader) (x : A) (br' : BufferReader),
    R br = Ok (x, br') ->
    br_data br' = br_data br
    /\ (br_offset br' <= List.length (br_data br))%nat
    /\ forall more : list byte,
         R (mkReader (br_data br ++ more) (br_offset br))
           = Ok (x, mkReader (br_data br ++ more) (br_offset br')).

(** The bytes of an Input on the wire, and the Inputs that the wire can
    carry as they are: a 32-byte hash, a 32-bit index and sequence, a script
    whose length fits the length prefix. *)
Definition wire (i : Input) : list byte :=
  hash (prevout i) ++ le_bytes 4 (index (prevout i))
    ++ varint_bytes (blen (raw (script i))) ++ raw (script i)
    ++ le_bytes 4 (sequence i).

Definition wire_valid (i : Input) : Prop :=
  blen (hash (prevout i)) = 32
  /\ 0 <= index (prevout i) < 2 ^ 32
  /\ 0 <= sequence i < 2 ^ 32
  /\ blen (raw (script i)) < 2 ^ 64.

(* ------------------------------------------------------------------ *)
(** ** Reference options of the parts *)

(** Modelled from the spec: the [fromOptions] of the outpoint, the script and
    the witness are not among the sources verified here, and the
    specification says nothing of them.  To run the Input's [fromOptions],
    the options of a part are read here in the part's JSON form, by the
    reference JSON decoders. *)
Module ReferenceOptions.

Definition outpoint_options : Part.FromOptions Outpoint :=
  {| Part.fromOptions := Reference.Outpoint_fromJSON |}.

Definition script_options : Part.FromOptions Script :=
  {| Part.fromOptions := Reference.Script_fromJSON |}.

Definition witness_options : Part.FromOptions Witness :=
  {| Part.fromOptions := Reference.Witness_fromJSON |}.

(** Options with a prevout and nothing else, and options with a sequence of
    zero. *)
Definition prevout_only : JsVal :=
  JObj [ ("prevout"%string, Reference.Outpoint_toJSON (mkOutpoint (repeat x44 32) 7)) ].

Definition sequence_zero : JsVal :=
  JObj [ ("prevout"%string, Reference.Outpoint_toJSON (mkOutpoint (repeat x44 32) 7));
         ("sequence"%string, JNum 0) ].

Definition sequence_text : JsVal :=
  JObj [ ("prevout"%string, Reference.Outpoint_toJSON (mkOutpoint (repeat x44 32) 7));
         ("sequence"%string, JStr "5") ].

End ReferenceOptions.

(* ================================================================== *)
(** * Properties *)

Lemma Ok_inj {A : Type} (a b : A) : Ok a = Ok b -> a = b.
Proof. congruence. Qed.

Lemma raises_Throw {A : Type} (e : Error) : raises (@Throw A e).
Proof. exists e. reflexivity. Qed.

Lemma raises_Ok {A : Type} (a : A) : ~ raises (Ok a).
Proof. intros [e He]. discriminate. Qed.

(* ------------------------------------------------------------------ *)
(** ** Bytes and little-endian integers *)

Lemma Z_of_byte_range (b : byte) : 0 <= Z_of_byte b < 256.
Proof.
  unfold Z_of_byte. pose proof (Byte.to_N_bounded b) as H.
  lia.
Qed.

Lemma byte_of_Z_of_byte (b : byte) : byte_of_Z (Z_of_byte b) = b.
Proof.
  unfold byte_of_Z. pose proof (Z_of_byte_range b) as R.
  change 0xff with (Z.ones 8). rewrite Z.land_ones by lia.
  rewrite Z.mod_small by (change (2 ^ 8) with 256; lia).
  unfold Z_of_byte. rewrite N2Z.id, Byte.of_to_N. reflexivity.
Qed.

Lemma Z_of_byte_of_Z (z : Z) : Z_of_byte (byte_of_Z z) = z mod 256.
Proof.
  unfold byte_of_Z. change 0xff with (Z.ones 8). rewrite Z.land_ones by lia.
  change (2 ^ 8) with 256.
  pose proof (Z.mod_pos_bound z 256 eq_refl) as R.
  destruct (Byte.of_N (Z.to_N (z mod 256))) as [b|] eqn:E.
  - apply Byte.to_of_N in E. unfold Z_of_byte. rewrite E. lia.
  - apply Byte.of_N_None_iff in E. lia.
Qed.

Lemma lor_shiftl_8 (a b : Z) :
  0 <= a < 256 -> 0 <= b -> Z.lor a (Z.shiftl b 8) = a + 256 * b.
Proof.
  intros Ha Hb.
  assert (L : Z.land a (Z.shiftl b 8) = 0).
  { apply Z.bits_inj'. intros n Hn. rewrite Z.land_spec, Z.bits_0.
    destruct (Z.lt_ge_cases n 8) as [Hlt|Hge].
    - rewrite (Z.shiftl_spec_low b 8 n Hlt). apply andb_false_r.
    - assert (Z.testbit a n = false) as ->; [ | reflexivity ].
      destruct (Z.eq_dec a 0) as [->|Hnz]; [apply Z.bits_0 | ].
      apply Z.bits_above_log2; [lia | ].
      apply Z.log2_lt_pow2; [lia | ].
      apply Z.lt_le_trans with (2 ^ 8); [change (2 ^ 8) with 256; lia | ].
      apply Z.pow_le_mono_r; lia. }
  rewrite <- Z.lxor_lor by exact L.
  rewrite <- Z.add_nocarry_lxor by exact L.
  rewrite Z.shiftl_mul_pow2 by lia. change (2 ^ 8) with 256. lia.
Qed.

Lemma le_bytes_length (n : nat) (v : Z) : List.length (le_bytes n v) = n.
Proof.
  revert v. induction n as [|n IH]; intros v; simpl; [reflexivity | ].
  now rewrite IH.
Qed.

Lemma le_value_nonneg (bs : list byte) : 0 <= le_value bs.
Proof.
  induction bs as [|b bs IH]; cbn [le_value]; [lia | ].
  pose proof (Z_of_byte_range b). rewrite lor_shiftl_8 by lia. lia.
Qed.

Lemma le_value_le_bytes (n : nat) (v : Z) :
  0 <= v < 2 ^ (8 * Z.of_nat n) -> le_value (le_bytes n v) = v.
Proof.
  revert v. induction n as [|n IH]; intros v Hv.
  - simpl in *. lia.
  - cbn [le_bytes le_value].
    replace (8 * Z.of_nat (S n)) with (8 + 8 * Z.of_nat n) in Hv by lia.
    rewrite Z.pow_add_r in Hv by lia. change (2 ^ 8) with 256 in Hv.
    rewrite Z.shiftr_div_pow2 by lia. change (2 ^ 8) with 256.
    assert (Hq : 0 <= v / 256 < 2 ^ (8 * Z.of_nat n)).
    { split; [apply Z.div_pos; lia | apply Z.div_lt_upper_bound; lia]. }
    rewrite (IH _ Hq), Z_of_byte_of_Z.
    pose proof (Z.mod_pos_bound v 256 eq_refl).
    rewrite lor_shiftl_8 by lia.
    pose proof (Z.div_mod v 256). lia.
Qed.

Lemma le_value_byte (b : byte) : le_value [b] = Z_of_byte b.
Proof.
  cbn [le_value]. pose proof (Z_of_byte_range b). rewrite lor_shiftl_8; lia.
Qed.

(* ------------------------------------------------------------------ *)
(** ** The null outpoint and lower-case names *)

Lemma bytes_eqb_eq (a b : list byte) : bytes_eqb a b = true <-> a = b.
Proof.
  unfold bytes_eqb. destruct (list_eq_dec Byte.byte_eq_dec a b); split;
    congruence.
Qed.

(** An outpoint is null exactly when its hash is all-zero and its index is
    0xffffffff. *)
Lemma Outpoint_isNull_spec (o : Outpoint) :
  Outpoint_isNull o = true <-> hash o = repeat x00 32 /\ index o = 0xffffffff.
Proof.
  unfold Outpoint_isNull, NULL_HASH.
  rewrite andb_true_iff, Z.eqb_eq, bytes_eqb_eq. tauto.
Qed.

Lemma Input_new_isCoinbase : isCoinbase Input_new = true.
Proof. reflexivity. Qed.

Lemma lower_ascii_not_upper (c : ascii) :
  (nat_of_ascii (lower_ascii c) < 65 \/ 90 < nat_of_ascii (lower_ascii c))%nat.
Proof.
  destruct c as [[] [] [] [] [] [] [] []]; vm_compute; lia.
Qed.

Lemma lower_ascii_idem (c : ascii) : lower_ascii (lower_ascii c) = lower_ascii c.
Proof.
  destruct c as [[] [] [] [] [] [] [] []]; reflexivity.
Qed.

Lemma toLowerCase_idem (s : string) : toLowerCase (toLowerCase s) = toLowerCase s.
Proof.
  induction s as [|c s IH]; cbn [toLowerCase]; [reflexivity | ].
  now rewrite lower_ascii_idem, IH.
Qed.

(* ------------------------------------------------------------------ *)
(** ** The reader on a buffer that starts with what a writer wrote *)

Lemma unread_new (data : list byte) : unread (BufferReader_new data) data.
Proof. split; simpl; [lia | reflexivity]. Qed.

Lemma readBytes_unread (br : BufferReader) (bs tl : list byte) :
  unread br (bs ++ tl) ->
  exists br', readBytes (List.length bs) br = Ok (bs, br') /\ unread br' tl.
Proof.
  intros [Hle Hskip].
  assert (Hlen : (br_offset br + List.length bs <= List.length (br_data br))%nat).
  { pose proof (f_equal (@List.length byte) Hskip) as L.
    rewrite length_skipn, length_app in L. lia. }
  exists (mkReader (br_data br) (br_offset br + List.length bs)).
  unfold readBytes, assert. rewrite (proj2 (Nat.leb_le _ _) Hlen). cbn [bind].
  rewrite Hskip, firstn_app, firstn_all, Nat.sub_diag, firstn_O, app_nil_r.
  split; [reflexivity | ].
  split; cbn [br_offset br_data]; [exact Hlen | ].
  rewrite Nat.add_comm, <- skipn_skipn, Hskip.
  rewrite skipn_app, skipn_all, Nat.sub_diag. reflexivity.
Qed.

Lemma readUInt_unread (k : nat) (v : Z) (br : BufferReader) (tl : list byte) :
  0 <= v < 2 ^ (8 * Z.of_nat k) ->
  unread br (le_bytes k v ++ tl) ->
  exists br', readUInt k br = Ok (v, br') /\ unread br' tl.
Proof.
  intros Hv Hu.
  destruct (readBytes_unread _ _ _ Hu) as (br' & Hr & Hu').
  rewrite le_bytes_length in Hr.
  exists br'. unfold readUInt. rewrite Hr. cbn [bind fst snd].
  rewrite le_value_le_bytes by assumption. auto.
Qed.

Lemma readU8_unread (b : byte) (br : BufferReader) (tl : list byte) :
  unread br (b :: tl) ->
  exists br', readU8 br = Ok (Z_of_byte b, br') /\ unread br' tl.
Proof.
  intros Hu.
  destruct (readBytes_unread br [b] tl Hu) as (br' & Hr & Hu').
  exists br'. unfold readU8, readUInt. cbn [List.length] in Hr. rewrite Hr.
  cbn [bind fst snd]. rewrite le_value_byte. auto.
Qed.

Lemma readVarint_unread (n : Z) (br : BufferReader) (tl : list byte) :
  0 <= n < 2 ^ 64 ->
  unread br (varint_bytes n ++ tl) ->
  exists br', readVarint br = Ok (n, br') /\ unread br' tl.
Proof.
  intros Hn Hu. unfold varint_bytes in Hu. unfold readVarint.
  destruct (Z.ltb_spec n 0xfd) as [H1|H1].
  - cbn [le_bytes app] in Hu.
    destruct (readU8_unread _ _ _ Hu) as (br' & Hr & Hu').
    rewrite Z_of_byte_of_Z, Z.mod_small in Hr by lia.
    exists br'. rewrite Hr. cbn [bind fst snd].
    destruct (Z.eqb_spec n 0xff); [lia | ].
    destruct (Z.eqb_spec n 0xfe); [lia | ].
    destruct (Z.eqb_spec n 0xfd); [lia | ]. auto.
  - destruct (Z.leb_spec n 0xffff) as [H2|H2];
      [ | destruct (Z.leb_spec n 0xffffffff) as [H3|H3] ];
      rewrite <- app_comm_cons in Hu;
      destruct (readU8_unread _ _ _ Hu) as (br1 & Hr & Hu1);
      rewrite Hr; cbn [bind fst snd]; cbv [Z_of_byte Byte.to_N Z.of_N Z.eqb Pos.eqb];
      [ apply (readUInt_unread 2) | apply (readUInt_unread 4) | apply (readUInt_unread 8) ];
      try assumption; simpl; lia.
Qed.

Lemma readVarBytes_unread (bs : list byte) (br : BufferReader) (tl : list byte) :
  blen bs < 2 ^ 64 ->
  unread br (varint_bytes (blen bs) ++ bs ++ tl) ->
  exists br', readVarBytes br = Ok (bs, br') /\ unread br' tl.
Proof.
  intros Hlen Hu. unfold readVarBytes.
  destruct (readVarint_unread (blen bs) br (bs ++ tl)) as (br1 & Hr & Hu1);
    [unfold blen in *; lia | assumption | ].
  rewrite Hr. cbn [bind fst snd]. unfold blen. rewrite Nat2Z.id.
  apply readBytes_unread. assumption.
Qed.

(* ------------------------------------------------------------------ *)
(** ** Binary codec of the Input *)

Lemma varint_bytes_length (n : Z) : blen (varint_bytes n) = sizeVarint n.
Proof.
  unfold varint_bytes, sizeVarint, blen.
  destruct (n <? 0xfd); [reflexivity | ].
  destruct (n <=? 0xffff); [reflexivity | ].
  destruct (n <=? 0xffffffff); reflexivity.
Qed.

Lemma blen_app (a b : list byte) : blen (a ++ b) = blen a + blen b.
Proof. unfold blen. rewrite length_app. lia. Qed.

Lemma blen_le_bytes (n : nat) (v : Z) : blen (le_bytes n v) = Z.of_nat n.
Proof. unfold blen. now rewrite le_bytes_length. Qed.

Create Rewrite HintDb blen.
#[local] Hint Rewrite blen_app blen_le_bytes varint_bytes_length : blen.

(** What [toWriter] appends to the writer: the four fields in wire order. *)
Lemma toWriter_appends (i : Input) (bw : StaticWriter) :
  blen (hash (prevout i)) = 32 ->
  toWriter i bw =
    Ok (mkWriter (bw_size bw)
          (bw_data bw ++ hash (prevout i) ++ le_bytes 4 (index (prevout i))
             ++ varint_bytes (blen (raw (script i))) ++ raw (script i)
             ++ le_bytes 4 (sequence i))).
Proof.
  intros Hh. unfold toWriter, Outpoint_toWriter, writeHash, assert.
  rewrite Hh. cbn [Z.eqb Pos.eqb bind].
  unfold writeU32, writeVarBytes, writeVarint, writeBytes, Script_toRaw.
  cbn [bw_size bw_data]. rewrite <- !app_assoc. reflexivity.
Qed.

(** A hash that is not 32 bytes long stops the writer. *)
Lemma toWriter_bad_hash (i : Input) (bw : StaticWriter) :
  blen (hash (prevout i)) <> 32 -> toWriter i bw = Throw AssertionError.
Proof.
  intros Hh. unfold toWriter, Outpoint_toWriter, writeHash, assert.
  destruct (Z.eqb_spec (blen (hash (prevout i))) 32); [contradiction | reflexivity].
Qed.

Lemma toRaw_layout (i : Input) :
  blen (hash (prevout i)) = 32 ->
  toRaw i =
    Ok (hash (prevout i) ++ le_bytes 4 (index (prevout i))
          ++ varint_bytes (blen (raw (script i))) ++ raw (script i)
          ++ le_bytes 4 (sequence i)).
Proof.
  intros Hh. unfold toRaw. rewrite (toWriter_appends i _ Hh).
  cbn [bind]. unfold render, StaticWriter_new, assert. cbn [bw_data bw_size app].
  autorewrite with blen. rewrite Hh.
  unfold getSize, Script_getVarSize, sizeVarBytes.
  replace (32 + (Z.of_nat 4 + (sizeVarint (blen (raw (script i)))
             + (blen (raw (script i)) + Z.of_nat 4))))
    with (40 + (sizeVarint (blen (raw (script i))) + blen (raw (script i)))) by lia.
  rewrite Z.eqb_refl. reflexivity.
Qed.

(** Whatever [toRaw] returns has [getSize()] bytes. *)
Lemma toRaw_length (i : Input) (buf : list byte) :
  toRaw i = Ok buf -> blen buf = getSize i.
Proof.
  destruct (Z.eq_dec (blen (hash (prevout i))) 32) as [Hh|Hh].
  - rewrite (toRaw_layout i Hh). intros E. apply Ok_inj in E. subst buf.
    autorewrite with blen. rewrite Hh.
    unfold getSize, Script_getVarSize, sizeVarBytes. lia.
  - unfold toRaw. rewrite (toWriter_bad_hash i _ Hh). discriminate.
Qed.

Lemma fromReader_wire (this i : Input) (br : BufferReader) (tl : list byte) :
  blen (hash (prevout i)) = 32 ->
  0 <= index (prevout i) < 2 ^ 32 ->
  0 <= sequence i < 2 ^ 32 ->
  blen (raw (script i)) < 2 ^ 64 ->
  unread br (hash (prevout i) ++ le_bytes 4 (index (prevout i))
               ++ varint_bytes (blen (raw (script i))) ++ raw (script i)
               ++ le_bytes 4 (sequence i) ++ tl) ->
  exists br',
    fromReader this br =
      Ok (mkInput (prevout i) (script i) (sequence i) (witness this), br')
    /\ unread br' tl.
Proof.
  intros Hh Hi Hs Hl Hu. unfold fromReader, Outpoint_fromReader, readHash.
  destruct (readBytes_unread _ _ _ Hu) as (br1 & R1 & U1).
  replace (List.length (hash (prevout i))) with 32%nat in R1
    by (unfold blen in Hh; lia).
  rewrite R1. cbn [bind fst snd].
  destruct (readUInt_unread 4 _ _ _ Hi U1) as (br2 & R2 & U2).
  fold readU32 in R2. rewrite R2. cbn [bind fst snd].
  destruct (readVarBytes_unread _ _ _ Hl U2) as (br3 & R3 & U3).
  rewrite R3. cbn [bind fst snd].
  destruct (readUInt_unread 4 _ _ _ Hs U3) as (br4 & R4 & U4).
  fold readU32 in R4. rewrite R4. cbn [bind fst snd].
  exists br4. split; [ | assumption ].
  unfold Script_fromRaw. destruct i as [[h ix] [r] sq w]. reflexivity.
Qed.

Lemma fromRaw_toRaw (i : Input) (buf : list byte) :
  blen (hash (prevout i)) = 32 ->
  0 <= index (prevout i) < 2 ^ 32 ->
  0 <= sequence i < 2 ^ 32 ->
  blen (raw (script i)) < 2 ^ 64 ->
  toRaw i = Ok buf ->
  Input_fromRaw buf = Ok (mkInput (prevout i) (script i) (sequence i) Witness_new).
Proof.
  intros Hh Hi Hs Hl. rewrite (toRaw_layout i Hh). intros E.
  apply Ok_inj in E. subst buf. unfold Input_fromRaw, fromRaw.
  destruct (fromReader_wire Input_new i
              (BufferReader_new (hash (prevout i) ++ le_bytes 4 (index (prevout i))
                 ++ varint_bytes (blen (raw (script i))) ++ raw (script i)
                 ++ le_bytes 4 (sequence i))) [] Hh Hi Hs Hl) as (br' & R & _).
  { rewrite app_nil_r. apply unread_new. }
  rewrite R. reflexivity.
Qed.

(** C1.  An Input with a non-coinbase prevout (a 32-byte hash and a 32-bit
    index), any script bytes and any 32-bit sequence is encoded by [toRaw] as
    hash, little-endian index, length-prefixed script, little-endian sequence,
    in this order; [Input.fromRaw] of these bytes succeeds and the decoded
    Input has the same prevout, script and sequence.  The witness is not in
    the bytes: they do not change with it, and the decoded Input carries the
    empty witness of a new Input. *)
Theorem binary_roundtrip (i : Input) :
  isCoinbase i = false ->
  blen (hash (prevout i)) = 32 ->
  0 <= index (prevout i) < 2 ^ 32 ->
  0 <= sequence i < 2 ^ 32 ->
  blen (raw (script i)) < 2 ^ 64 ->
  exists (buf : list byte) (i' : Input),
    toRaw i = Ok buf
    /\ buf = hash (prevout i) ++ le_bytes 4 (index (prevout i))
               ++ varint_bytes (blen (raw (script i))) ++ raw (script i)
               ++ le_bytes 4 (sequence i)
    /\ Input_fromRaw buf = Ok i'
    /\ prevout i' = prevout i
    /\ script i' = script i
    /\ sequence i' = sequence i
    /\ witness i' = Witness_new
    /\ (forall w : Witness,
          toRaw (mkInput (prevout i) (script i) (sequence i) w) = Ok buf).
Proof.
  intros _ Hh Hi Hs Hl.
  eexists. exists (mkInput (prevout i) (script i) (sequence i) Witness_new).
  split; [apply (toRaw_layout i Hh) | ].
  split; [reflexivity | ].
  split; [apply (fromRaw_toRaw i); auto using toRaw_layout | ].
  repeat (split; [reflexivity | ]).
  intros w. apply (toRaw_layout (mkInput (prevout i) (script i) (sequence i) w) Hh).
Qed.

(** C6.  [getSize()] is 40 plus the size of the script's length prefix plus
    the script's length, and the buffer that [toRaw] produces (it does
    produce one when the outpoint hash has its 32 bytes) has exactly
    [getSize()] bytes. *)
Theorem getSize_is_encoded_length (i : Input) :
  blen (hash (prevout i)) = 32 ->
  getSize i = 40 + (sizeVarint (blen (raw (script i))) + blen (raw (script i)))
  /\ exists buf : list byte, toRaw i = Ok buf /\ blen buf = getSize i.
Proof.
  intros Hh. split; [reflexivity | ].
  eexists. split; [apply (toRaw_layout i Hh) | ].
  apply toRaw_length, toRaw_layout, Hh.
Qed.

(* ------------------------------------------------------------------ *)
(** ** Sequence predicates *)

(** C4.  [isFinal()] holds exactly for sequence 0xffffffff, [isRBF()] exactly
    for sequences below 0xfffffffe, and an Input with sequence 0xfffffffe is
    neither. *)
Theorem isFinal_isRBF_spec (i : Input) :
  (isFinal i = true <-> sequence i = 0xffffffff)
  /\ (isRBF i = true <-> sequence i < 0xfffffffe)
  /\ (sequence i = 0xfffffffe -> isFinal i = false /\ isRBF i = false).
Proof.
  unfold isFinal, isRBF. repeat split.
  - apply Z.eqb_eq.
  - apply Z.eqb_eq.
  - apply Z.ltb_lt.
  - apply Z.ltb_lt.
  - apply Z.eqb_neq. lia.
  - apply Z.ltb_ge. lia.
Qed.

Lemma isFinal_isRBF_spec_witness :
  isFinal Sample.input = false /\ isRBF Sample.input = false.
Proof.
  apply (proj2 (proj2 (isFinal_isRBF_spec Sample.input))). reflexivity.
Defined.

Lemma binary_roundtrip_witness :
  exists (buf : list byte) (i' : Input),
    toRaw Sample.input = Ok buf
    /\ buf = hash (prevout Sample.input) ++ le_bytes 4 (index (prevout Sample.input))
               ++ varint_bytes (blen (raw (script Sample.input)))
               ++ raw (script Sample.input)
               ++ le_bytes 4 (sequence Sample.input)
    /\ Input_fromRaw buf = Ok i'
    /\ prevout i' = prevout Sample.input
    /\ script i' = script Sample.input
    /\ sequence i' = sequence Sample.input
    /\ witness i' = Witness_new
    /\ (forall w : Witness,
          toRaw (mkInput (prevout Sample.input) (script Sample.input)
                   (sequence Sample.input) w) = Ok buf).
Proof.
  apply (binary_roundtrip Sample.input).
  - reflexivity.
  - reflexivity.
  - simpl. lia.
  - simpl. lia.
  - vm_compute. reflexivity.
Defined.

Lemma getSize_is_encoded_length_witness :
  getSize Sample.input
    = 40 + (sizeVarint (blen (raw (script Sample.input)))
            + blen (raw (script Sample.input)))
  /\ exists buf : list byte,
       toRaw Sample.input = Ok buf /\ blen buf = getSize Sample.input.
Proof.
  apply (getSize_is_encoded_length Sample.input). reflexivity.
Defined.

(* ------------------------------------------------------------------ *)
(** ** Type, redeem script and address resolution *)

Section Resolution.

Context {W : Collaborators}.

Lemma getRedeem_with_coin (i : Input) (c : Coin) :
  isCoinbase i = false ->
  getRedeem i (Some c) =
    if Script_isScripthash (Coin_script c)
    then match Cap.getRedeem (script i) with
         | Some first =>
             if Script_isWitnessScripthash first
             then Cap.getRedeem (witness i)
             else Some first
         | None => None
         end
    else if Script_isWitnessScripthash (Coin_script c)
         then Cap.getRedeem (witness i)
         else None.
Proof.
  intros Hc. unfold getRedeem. rewrite Hc.
  destruct (Script_isScripthash (Coin_script c)).
  - destruct (Cap.getRedeem (script i)) as [first|]; [ | reflexivity ].
    destruct (Script_isWitnessScripthash first); reflexivity.
  - destruct (Script_isWitnessScripthash (Coin_script c)); reflexivity.
Qed.

(** C2, as the code has it.  For a non-coinbase Input and a Coin whose output
    script is a script-hash, [getRedeem(coin)] unwraps through the Input's
    script and, when that first-level redeem script is a witness-script-hash,
    through the Input's witness: the result is then what the witness yields,
    the deeper redeem script when it holds one and nothing when it does not
    (the intermediate script is not kept); when the second unwrap does not
    apply the first-level redeem is the result.  Whenever the witness does
    yield a script this is the deepest resolved redeem script. *)
Theorem getRedeem_nested_unwrap (i : Input) (c : Coin) :
  isCoinbase i = false ->
  Script_isScripthash (Coin_script c) = true ->
  (forall first : Script,
      Cap.getRedeem (script i) = Some first ->
      Script_isWitnessScripthash first = true ->
      getRedeem i (Some c) = Cap.getRedeem (witness i)
      /\ (forall second : Script,
            Cap.getRedeem (witness i) = Some second ->
            getRedeem i (Some c) = Some second
            /\ getRedeem i (Some c) = deepest_resolved_redeem i))
  /\ (forall first : Script,
        Cap.getRedeem (script i) = Some first ->
        Script_isWitnessScripthash first = false ->
        getRedeem i (Some c) = Some first
        /\ getRedeem i (Some c) = deepest_resolved_redeem i)
  /\ (Cap.getRedeem (script i) = None ->
        getRedeem i (Some c) = None
        /\ getRedeem i (Some c) = deepest_resolved_redeem i).
Proof.
  intros Hc Hsh. rewrite (getRedeem_with_coin i c Hc), Hsh.
  unfold deepest_resolved_redeem.
  split; [ | split ].
  - intros first H1 H2. rewrite H1, H2. split; [reflexivity | ].
    intros second H3. rewrite H3. split; reflexivity.
  - intros first H1 H2. rewrite H1, H2. split; reflexivity.
  - intros H1. rewrite H1. split; reflexivity.
Qed.

(** C3.  [isCoinbase()] is [prevout.isNull()], and on a coinbase Input,
    whatever the script, the witness and the coin argument, [getType] is
    "coinbase" and [getRedeem], [getSubtype] and [getAddress] have no value. *)
Theorem coinbase_short_circuit (i : Input) (c : option Coin) :
  isCoinbase i = Outpoint_isNull (prevout i)
  /\ (Outpoint_isNull (prevout i) = true ->
        getType i c = Ok "coinbase"%string
        /\ getRedeem i c = None
        /\ getSubtype i c = Ok None
        /\ getAddress i c = None).
Proof.
  split; [reflexivity | ].
  intros Hnull. unfold getType, getRedeem, getSubtype, getAddress, isCoinbase.
  rewrite Hnull. repeat split.
Qed.

(** C5.  Without a Coin, on a non-coinbase Input, [getType] names (through
    the lower-cased type table) the witness's input type when the witness has
    items and the script's input type when it has none, and [getAddress] is
    the witness's input address when the witness has items and the script's
    when it has none. *)
Theorem guessing_prefers_witness (i : Input) :
  isCoinbase i = false ->
  (items (witness i) <> [] ->
     getType i None = typeName (Cap.getInputType (witness i))
     /\ getAddress i None = Cap.getInputAddress (witness i))
  /\ (items (witness i) = [] ->
        getType i None = typeName (Cap.getInputType (script i))
        /\ getAddress i None = Cap.getInputAddress (script i))
  /\ (forall type : Z,
        typeName type =
          match scriptTypesByVal type with
          | Some name => Ok (toLowerCase name)
          | None => Throw TypeError
          end).
Proof.
  intros Hc. unfold getType, getAddress. rewrite Hc.
  split; [ | split ].
  - intros Hne. destruct (items (witness i)) as [|x xs]; [contradiction | ].
    split; reflexivity.
  - intros ->. split; reflexivity.
  - reflexivity.
Qed.

(** C9.  In the object built by [getJSON(network, coin)], the address is
    there only when no Coin is supplied: it is then the base58 text, for the
    resolved network, of [getAddress()], or undefined when there is no
    address; with a Coin it is undefined.  The coin field is undefined without
    a Coin and [coin.getJSON(network, true)] with one. *)
Theorem getJSON_address_and_coin (i : Input) (n : option NetworkArg) (c : option Coin) :
  get_prop (getJSON i n c) "address" =
    match c with
    | Some _ => JUndefined
    | None =>
        match getAddress i None with
        | Some a => JStr (Address_toBase58 a (Network_get n))
        | None => JUndefined
        end
    end
  /\ get_prop (getJSON i n c) "coin" =
       match c with
       | Some coin => Coin_getJSON coin (Network_get n) true
       | None => JUndefined
       end.
Proof.
  split; destruct c; reflexivity.
Qed.

(** C10.  [toJSON(network, coin)] is [getJSON()] without arguments, whatever
    is passed: its coin field is undefined and its address, if any, is
    rendered for the network that [Network.get(undefined)] resolves. *)
Theorem toJSON_drops_arguments (i : Input) (n : option NetworkArg) (c : option Coin) :
  toJSON i n c = getJSON i None None
  /\ get_prop (toJSON i n c) "coin" = JUndefined
  /\ get_prop (toJSON i n c) "address" =
       match getAddress i None with
       | Some a => JStr (Address_toBase58 a (Network_get None))
       | None => JUndefined
       end.
Proof.
  repeat split.
Qed.

Lemma toJSON_ignores (i : Input) (n n' : option NetworkArg) (c c' : option Coin) :
  toJSON i n c = toJSON i n' c'.
Proof. reflexivity. Qed.

End Resolution.

(** The signed sample spend resolves to the multisig script, and the spend
    that wraps the multisig script directly resolves to it in one step. *)
Lemma getRedeem_nested_unwrap_witness :
  getRedeem (W := Sample.world) Sample.input (Some Sample.coin) = Some Sample.multisig
  /\ getRedeem (W := Sample.world) Sample.direct (Some Sample.coin) = Some Sample.multisig.
Proof.
  split.
  - apply (proj1 (getRedeem_nested_unwrap (W := Sample.world) Sample.input Sample.coin
                    eq_refl eq_refl) Sample.program eq_refl eq_refl).
    reflexivity.
  - apply (proj1 (proj2 (getRedeem_nested_unwrap (W := Sample.world) Sample.direct
                           Sample.coin eq_refl eq_refl)) Sample.multisig);
      reflexivity.
Defined.

(** C2, as the specification words it, fails on the unsigned sample spend:
    the first-level redeem script (the witness program) is resolved, the
    witness holds nothing, and [getRedeem(coin)] has no value instead of the
    deepest script that was resolved. *)
Lemma getRedeem_unsigned_counterexample :
  isCoinbase Sample.unsigned = false
  /\ Script_isScripthash (Collaborators := Sample.world)
       (Coin_script (Collaborators := Sample.world) Sample.coin) = true
  /\ Cap.getRedeem (Classifiable := Script_cls (Collaborators := Sample.world))
       (script Sample.unsigned) = Some Sample.program
  /\ Script_isWitnessScripthash (Collaborators := Sample.world) Sample.program = true
  /\ deepest_resolved_redeem (W := Sample.world) Sample.unsigned = Some Sample.program
  /\ getRedeem (W := Sample.world) Sample.unsigned (Some Sample.coin) = None
  /\ getRedeem (W := Sample.world) Sample.unsigned (Some Sample.coin)
       <> deepest_resolved_redeem (W := Sample.world) Sample.unsigned.
Proof.
  repeat split; try reflexivity. discriminate.
Qed.

Lemma coinbase_short_circuit_witness :
  getType (W := Sample.world) Sample.coinbase (Some Sample.coin) = Ok "coinbase"%string
  /\ getRedeem (W := Sample.world) Sample.coinbase (Some Sample.coin) = None
  /\ getSubtype (W := Sample.world) Sample.coinbase (Some Sample.coin) = Ok None
  /\ getAddress (W := Sample.world) Sample.coinbase (Some Sample.coin) = None.
Proof.
  apply (proj2 (coinbase_short_circuit (W := Sample.world) Sample.coinbase
                  (Some Sample.coin))).
  reflexivity.
Defined.

Lemma guessing_prefers_witness_witness :
  (getType (W := Sample.world) Sample.input None = Ok "witnessscripthash"%string
   /\ getAddress (W := Sample.world) Sample.input None
        = Cap.getInputAddress (witness Sample.input))
  /\ (getType (W := Sample.world) Sample.unsigned None = Ok "scripthash"%string
      /\ getAddress (W := Sample.world) Sample.unsigned None
           = Cap.getInputAddress (script Sample.unsigned)).
Proof.
  split.
  - apply (proj1 (guessing_prefers_witness (W := Sample.world) Sample.input eq_refl)).
    discriminate.
  - apply (proj1 (proj2 (guessing_prefers_witness (W := Sample.world) Sample.unsigned
                           eq_refl))).
    reflexivity.
Defined.

(* ------------------------------------------------------------------ *)
(** ** The reference JSON codecs satisfy the round-trip law *)

Module ReferenceLaws.

Import Reference.

Lemma hex_byte (b : byte) :
  exists h l : Z,
    hex_value (hex_digit (Z.shiftr (Z_of_byte b) 4)) = Some h
    /\ hex_value (hex_digit (Z.land (Z_of_byte b) 0xf)) = Some l
    /\ byte_of_Z (Z.lor (Z.shiftl h 4) l) = b.
Proof.
  destruct b; do 2 eexists; (split; [ | split ]); vm_compute; reflexivity.
Qed.

Lemma bytes_of_hex_of_bytes (bs : list byte) :
  bytes_of_hex (hex_of_bytes bs) = Some bs.
Proof.
  induction bs as [|b bs IH]; [reflexivity | ].
  cbn [hex_of_bytes bytes_of_hex].
  destruct (hex_byte b) as (h & l & -> & -> & Hb).
  rewrite IH, Hb. reflexivity.
Qed.

Lemma Outpoint_json_roundtrip (this o : Outpoint) :
  valid_outpoint o -> Outpoint_fromJSON this (Outpoint_toJSON o) = Ok o.
Proof.
  intros [Hlo Hhi]. unfold Outpoint_fromJSON, Outpoint_toJSON.
  cbn [truthy assert bind get_prop lookup_prop String.eqb Ascii.eqb Bool.eqb
       isUInt32 number_value].
  apply Z.leb_le in Hlo, Hhi. rewrite Hlo, Hhi. cbn [andb bind].
  rewrite bytes_of_hex_of_bytes, rev_involutive. destruct o; reflexivity.
Qed.

Lemma Script_json_roundtrip (this s : Script) :
  Script_fromJSON this (Script_toJSON s) = Ok s.
Proof.
  unfold Script_fromJSON, Script_toJSON, Script_toRaw, Script_fromRaw.
  rewrite bytes_of_hex_of_bytes. destruct s; reflexivity.
Qed.

Lemma read_items_unread (its acc : list (list byte)) (br : BufferReader)
    (tl : list byte) :
  Forall (fun item => blen item < 2 ^ 64) its ->
  unread br (List.concat (map (fun item => varint_bytes (blen item) ++ item) its) ++ tl) ->
  exists br',
    read_items (List.length its) acc br = Ok (acc ++ its, br') /\ unread br' tl.
Proof.
  revert acc br. induction its as [|item its IH]; intros acc br Hv Hu.
  - exists br. cbn [read_items List.length]. rewrite app_nil_r. auto.
  - inversion Hv as [|? ? Hitem Hrest]; subst.
    cbn [map List.concat] in Hu. rewrite <- !app_assoc in Hu.
    destruct (readVarBytes_unread _ _ _ Hitem Hu) as (br1 & R1 & U1).
    cbn [read_items List.length]. rewrite R1. cbn [bind fst snd].
    destruct (IH (acc ++ [item]) br1 Hrest U1) as (br2 & R2 & U2).
    exists br2. rewrite R2, <- app_assoc. auto.
Qed.

Lemma Witness_raw_roundtrip (w : Witness) :
  valid_witness w -> Witness_fromRaw Witness_new (Witness_toRaw w) = Ok w.
Proof.
  intros [Hn Hits]. unfold Witness_fromRaw, Witness_toRaw.
  destruct (readVarint_unread (Z.of_nat (List.length (items w)))
              (BufferReader_new
                 (varint_bytes (Z.of_nat (List.length (items w)))
                  ++ List.concat (map (fun item => varint_bytes (blen item) ++ item)
                                    (items w))))
              (List.concat (map (fun item => varint_bytes (blen item) ++ item)
                              (items w))))
    as (br1 & R1 & U1); [lia | apply unread_new | ].
  rewrite R1. cbn [bind fst snd]. rewrite Nat2Z.id.
  destruct (read_items_unread (items w) (items Witness_new) br1 [] Hits) as (br2 & R2 & _).
  { rewrite app_nil_r. exact U1. }
  rewrite R2. cbn [bind fst snd Witness_new items app]. destruct w; reflexivity.
Qed.

Lemma Witness_json_roundtrip (w : Witness) :
  valid_witness w -> Witness_fromJSON Witness_new (Witness_toJSON w) = Ok w.
Proof.
  intros Hv. unfold Witness_fromJSON, Witness_toJSON.
  rewrite bytes_of_hex_of_bytes. apply Witness_raw_roundtrip, Hv.
Qed.

(** The reference decoders refuse an absent field and a string that is not
    hex. *)
Lemma absent_field_raises (o : Outpoint) (s : Script) (w : Witness) :
  raises (Outpoint_fromJSON o JUndefined)
  /\ raises (Script_fromJSON s JUndefined)
  /\ raises (Witness_fromJSON w JUndefined).
Proof. repeat split; apply raises_Throw. Qed.

Lemma malformed_hex_raises (s : Script) (w : Witness) (text : string) :
  bytes_of_hex text = None ->
  raises (Script_fromJSON s (JStr text)) /\ raises (Witness_fromJSON w (JStr text)).
Proof.
  intros H. unfold Script_fromJSON, Witness_fromJSON. rewrite H.
  split; apply raises_Throw.
Qed.

Section Laws.

Variable hash160 sha256 : list byte -> list byte.
Variable base58 : Network_t -> Address_t -> string.

Lemma Outpoint_laws :
  JsonLaws Outpoint
    (C := Outpoint_json (Collaborators := collaborators hash160 sha256 base58))
    Outpoint_new valid_outpoint.
Proof. constructor. intros o Ho. apply Outpoint_json_roundtrip, Ho. Qed.

Lemma Script_laws :
  JsonLaws Script
    (C := Script_json (Collaborators := collaborators hash160 sha256 base58))
    Script_new valid_script.
Proof. constructor. intros s _. apply Script_json_roundtrip. Qed.

Lemma Witness_laws :
  JsonLaws Witness
    (C := Witness_json (Collaborators := collaborators hash160 sha256 base58))
    Witness_new valid_witness.
Proof. constructor. intros w Hw. apply Witness_json_roundtrip, Hw. Qed.

End Laws.

End ReferenceLaws.

(* ------------------------------------------------------------------ *)
(** ** JSON codec of the Input *)

(** A case in which the call has raised: no Input is returned, and the
    disjunct [side] tells why. *)
Ltac raised side :=
  split; [ | discriminate ];
  split; [ intros _; side; first [ reflexivity | apply raises_Throw ]
         | intros _; apply raises_Throw ].

Section JsonCodec.

Context {W : Collaborators}.

(** What [fromJSON] does, step by step. *)
Lemma fromJSON_cases (this : Input) (json : JsVal) :
  fromJSON this json =
    if truthy json then
      if util_isNumber (get_prop json "sequence") then
        match Cap.fromJSON (prevout this) (get_prop json "prevout") with
        | Throw e => Throw e
        | Ok p =>
            match Cap.fromJSON (script this) (get_prop json "script") with
            | Throw e => Throw e
            | Ok s =>
                match Cap.fromJSON (witness this) (get_prop json "witness") with
                | Throw e => Throw e
                | Ok w => Ok (mkInput p s (number_value (get_prop json "sequence")) w)
                end
            end
        end
      else Throw AssertionError
    else Throw AssertionError.
Proof.
  unfold fromJSON, assert.
  destruct (truthy json); [ | reflexivity ]. cbn [bind].
  destruct (util_isNumber (get_prop json "sequence")); [ | reflexivity ]. cbn [bind].
  destruct (Cap.fromJSON (prevout this) _); [ | reflexivity ]. cbn [bind].
  destruct (Cap.fromJSON (script this) _); [ | reflexivity ]. cbn [bind].
  destruct (Cap.fromJSON (witness this) _); reflexivity.
Qed.

(** C8, as the code has it.  [fromJSON] raises exactly when the object is
    falsy, when its sequence is not a finite number ([util.isNumber]), or when
    the decoder of the prevout, of the script or of the witness raises on its
    field (an absent field is handed to it as undefined); and when it returns,
    every part is what its decoder made of its field and the sequence is the
    number given: nothing is defaulted.  The sequence is not checked to be an
    unsigned integer. *)
Theorem fromJSON_raises_iff (this : Input) (json : JsVal) :
  (raises (fromJSON this json) <->
     truthy json = false
     \/ util_isNumber (get_prop json "sequence") = false
     \/ raises (Cap.fromJSON (prevout this) (get_prop json "prevout"))
     \/ raises (Cap.fromJSON (script this) (get_prop json "script"))
     \/ raises (Cap.fromJSON (witness this) (get_prop json "witness")))
  /\ (forall i : Input,
        fromJSON this json = Ok i ->
        Cap.fromJSON (prevout this) (get_prop json "prevout") = Ok (prevout i)
        /\ Cap.fromJSON (script this) (get_prop json "script") = Ok (script i)
        /\ Cap.fromJSON (witness this) (get_prop json "witness") = Ok (witness i)
        /\ get_prop json "sequence" = JNum (sequence i)).
Proof.
  rewrite fromJSON_cases.
  destruct (truthy json); [ | raised ltac:(left) ].
  destruct (get_prop json "sequence") as [ | |b|z| |neg|s|props] eqn:Hseq;
    cbn [util_isNumber number_value];
    try (raised ltac:(right; left)).
  destruct (Cap.fromJSON (prevout this) _) as [p|e1];
    [ | raised ltac:(do 2 right; left) ].
  destruct (Cap.fromJSON (script this) _) as [s|e2];
    [ | raised ltac:(do 3 right; left) ].
  destruct (Cap.fromJSON (witness this) _) as [w|e3];
    [ | raised ltac:(do 4 right) ].
  split.
  - split.
    + intros H. destruct (raises_Ok _ H).
    + intros [H|[H|[H|[H|H]]]]; try discriminate; destruct (raises_Ok _ H).
  - intros i E. apply Ok_inj in E. subst i. cbn [prevout script witness sequence].
    repeat split.
Qed.

Variable valid_outpoint : Outpoint -> Prop.
Variable valid_script : Script -> Prop.
Variable valid_witness : Witness -> Prop.

Context {Lo : JsonLaws Outpoint Outpoint_new valid_outpoint}.
Context {Ls : JsonLaws Script Script_new valid_script}.
Context {Lw : JsonLaws Witness Witness_new valid_witness}.

Lemma Input_fromJSON_getJSON (i : Input) (n : option NetworkArg) (c : option Coin) :
  valid_outpoint (prevout i) ->
  valid_script (script i) ->
  valid_witness (witness i) ->
  Input_fromJSON (getJSON i n c) = Ok i.
Proof.
  intros Ho Hs Hw. unfold Input_fromJSON. rewrite fromJSON_cases.
  unfold getJSON.
  cbn [truthy get_prop lookup_prop String.eqb Ascii.eqb Bool.eqb util_isNumber
       number_value Input_new prevout script witness].
  rewrite (fromJSON_toJSON _ Ho), (fromJSON_toJSON _ Hs), (fromJSON_toJSON _ Hw).
  destruct i; reflexivity.
Qed.

(** C7.  With part codecs that satisfy the round-trip law on valid parts,
    [Input.fromJSON] of the JSON form of an Input with valid parts returns,
    and the Input it returns has the same prevout, script, witness and
    sequence; the address and coin fields of the JSON form are not read. *)
Theorem json_roundtrip (i : Input) (n : option NetworkArg) (c : option Coin) :
  valid_outpoint (prevout i) ->
  valid_script (script i) ->
  valid_witness (witness i) ->
  exists i' : Input,
    Input_fromJSON (toJSON i n c) = Ok i'
    /\ prevout i' = prevout i
    /\ script i' = script i
    /\ witness i' = witness i
    /\ sequence i' = sequence i.
Proof.
  intros Ho Hs Hw. exists i. unfold toJSON.
  rewrite (Input_fromJSON_getJSON i None None Ho Hs Hw). repeat split.
Qed.

End JsonCodec.

Lemma json_roundtrip_witness :
  exists i' : Input,
    Input_fromJSON (W := Sample.world)
      (toJSON (W := Sample.world) Sample.input (Some Reference.testnet) (Some Sample.coin))
      = Ok i'
    /\ prevout i' = prevout Sample.input
    /\ script i' = script Sample.input
    /\ witness i' = witness Sample.input
    /\ sequence i' = sequence Sample.input.
Proof.
  apply (json_roundtrip (W := Sample.world)
           Reference.valid_outpoint Reference.valid_script Reference.valid_witness
           (Lo := ReferenceLaws.Outpoint_laws _ _ _)
           (Ls := ReferenceLaws.Script_laws _ _ _)
           (Lw := ReferenceLaws.Witness_laws _ _ _)).
  - unfold Reference.valid_outpoint. simpl. lia.
  - exact I.
  - split; [ vm_compute; reflexivity | ].
    repeat constructor; vm_compute; reflexivity.
Defined.

(** C8, as the specification words it, fails on a negative sequence: -1 is a
    number, so the assertion passes, and [Input.fromJSON] returns an Input
    whose sequence is -1. *)
Lemma fromJSON_negative_sequence_counterexample :
  get_prop Sample.negative_sequence "sequence" = JNum (-1)
  /\ Reference.isUInt32 (get_prop Sample.negative_sequence "sequence") = false
  /\ Input_fromJSON (W := Sample.world) Sample.negative_sequence
       = Ok (mkInput (mkOutpoint (repeat x22 32) 0) (mkScript [x51]) (-1) Witness_new)
  /\ ~ raises (Input_fromJSON (W := Sample.world) Sample.negative_sequence).
Proof.
  assert (E : Input_fromJSON (W := Sample.world) Sample.negative_sequence
              = Ok (mkInput (mkOutpoint (repeat x22 32) 0) (mkScript [x51]) (-1)
                      Witness_new))
    by (vm_compute; reflexivity).
  split; [reflexivity | ]. split; [reflexivity | ]. split; [exact E | ].
  rewrite E. apply raises_Ok.
Qed.

(** With the reference codecs, an object without its script (or prevout, or
    witness, or sequence) makes [Input.fromJSON] raise. *)
Lemma fromJSON_raises_iff_witness :
  raises (Input_fromJSON (W := Sample.world)
            (JObj [ ("prevout"%string, Reference.Outpoint_toJSON (prevout Sample.input));
                    ("witness"%string, JStr "00");
                    ("sequence"%string, JNum 0) ])).
Proof.
  apply (proj2 (proj1 (fromJSON_raises_iff (W := Sample.world) Input_new
                         (JObj [ ("prevout"%string, Reference.Outpoint_toJSON (prevout Sample.input));
                                 ("witness"%string, JStr "00");
                                 ("sequence"%string, JNum 0) ])))).
  right. right. right. left. exists AssertionError. reflexivity.
Defined.

(* ------------------------------------------------------------------ *)
(** ** Runs on the sample data *)

Example sample_size : getSize Sample.input = 76.
Proof. reflexivity. Qed.

Example sample_decodes :
  option_map (fun buf => Input_fromRaw buf)
    (match toRaw Sample.input with Ok buf => Some buf | Throw _ => None end)
  = Some (Ok Sample.unsigned).
Proof. vm_compute. reflexivity. Qed.

Example sample_truncated : Input_fromRaw (repeat x00 40) = Throw AssertionError.
Proof. vm_compute. reflexivity. Qed.

Example sample_types :
  getType (W := Sample.world) Sample.input None = Ok "witnessscripthash"%string
  /\ getType (W := Sample.world) Sample.unsigned None = Ok "scripthash"%string
  /\ getType (W := Sample.world) Sample.input (Some Sample.coin) = Ok "scripthash"%string
  /\ getType (W := Sample.world) Sample.coinbase None = Ok "coinbase"%string.
Proof. repeat split. Qed.

Example sample_json_fields :
  get_prop (getJSON (W := Sample.world) Sample.input None (Some Sample.coin)) "sequence"
    = JNum 0xfffffffe
  /\ get_prop (getJSON (W := Sample.world) Sample.input None (Some Sample.coin)) "address"
       = JUndefined
  /\ get_prop (getJSON (W := Sample.world) Sample.coinbase None None) "address"
       = JUndefined
  /\ get_prop (getJSON (W := Sample.world) Sample.input None None) "script"
       = JStr "220020bbbbbbbbbbbbbbbbbbbbbbbbbbbbbbbbbbbbbbbbbbbbbbbbbbbbbbbbbbbbbbbb".
Proof. repeat split. Qed.

(* ================================================================== *)
(** * Further properties of the binary codec *)

Lemma byte_of_Z_mod (z m : Z) : 0 < m -> byte_of_Z (z mod (256 * m)) = byte_of_Z z.
Proof.
  intros Hm. unfold byte_of_Z. change 0xff with (Z.ones 8).
  rewrite !Z.land_ones by lia. change (2 ^ 8) with 256.
  rewrite Z.rem_mul_r by lia.
  rewrite (Z.mul_comm 256), Z.mod_add by lia.
  rewrite Z.mod_mod by lia. reflexivity.
Qed.

Lemma shiftr_8_mod (z m : Z) :
  0 < m -> Z.shiftr (z mod (256 * m)) 8 = (Z.shiftr z 8) mod m.
Proof.
  intros Hm. rewrite !Z.shiftr_div_pow2 by lia. change (2 ^ 8) with 256.
  rewrite Z.rem_mul_r by lia.
  rewrite (Z.mul_comm 256), Z.div_add by lia.
  rewrite (Z.div_small (z mod 256)) by (apply Z.mod_pos_bound; lia). lia.
Qed.

(** Only the low [8 * n] bits of a number are written. *)
Lemma le_bytes_mod (n : nat) (v : Z) :
  le_bytes n v = le_bytes n (v mod 2 ^ (8 * Z.of_nat n)).
Proof.
  revert v. induction n as [|n IH]; intros v; [reflexivity | ].
  cbn [le_bytes].
  replace (8 * Z.of_nat (S n)) with (8 + 8 * Z.of_nat n) by lia.
  rewrite Z.pow_add_r by lia. change (2 ^ 8) with 256.
  assert (Hm : 0 < 2 ^ (8 * Z.of_nat n)) by (apply Z.pow_pos_nonneg; lia).
  rewrite (byte_of_Z_mod v _ Hm), (shiftr_8_mod v _ Hm).
  rewrite <- (IH (Z.shiftr v 8)). reflexivity.
Qed.

(* ------------------------------------------------------------------ *)
(** ** Reads are stable under longer buffers *)

Lemma stable_readBytes (n : nat) : stable (readBytes n).
Proof.
  intros br x br' H. unfold readBytes, assert in H.
  destruct (Nat.leb_spec (br_offset br + n) (List.length (br_data br))) as [Hle|];
    cbn [bind] in H; [ | discriminate ].
  apply Ok_inj in H. injection H as <- <-. cbn [br_data br_offset].
  split; [reflexivity | ]. split; [exact Hle | ].
  intros more. unfold readBytes, assert. cbn [br_data br_offset].
  rewrite length_app.
  rewrite (proj2 (Nat.leb_le _ _)) by lia. cbn [bind].
  rewrite skipn_app, firstn_app, length_skipn.
  replace (br_offset br - List.length (br_data br))%nat with 0%nat by lia.
  replace (n - (List.length (br_data br) - br_offset br))%nat with 0%nat by lia.
  cbn [skipn firstn]. rewrite app_nil_r. reflexivity.
Qed.

Lemma stable_bind {A B : Type} (R : Reader A) (K : A -> Reader B) :
  stable R -> (forall a : A, stable (K a)) ->
  stable (fun br => r <- R br ;; K (fst r) (snd r)).
Proof.
  intros HR HK br x br' H.
  destruct (R br) as [[a br1]|e] eqn:E; cbn [bind fst snd] in H; [ | discriminate ].
  destruct (HR _ _ _ E) as (D1 & L1 & X1).
  destruct (HK a _ _ _ H) as (D2 & L2 & X2).
  rewrite D1 in D2, L2, X2.
  split; [exact D2 | ]. split; [exact L2 | ].
  intros more. rewrite X1. cbn [bind fst snd].
  specialize (X2 more). exact X2.
Qed.

Lemma stable_map {A B : Type} (R : Reader A) (f : A -> B) :
  stable R -> stable (fun br => r <- R br ;; Ok (f (fst r), snd r)).
Proof.
  intros HR br x br' H.
  destruct (R br) as [[a br1]|e] eqn:E; cbn [bind fst snd] in H; [ | discriminate ].
  apply Ok_inj in H. injection H as <- <-.
  destruct (HR _ _ _ E) as (D1 & L1 & X1).
  split; [exact D1 | ]. split; [exact L1 | ].
  intros more. rewrite X1. reflexivity.
Qed.

Lemma stable_readUInt (k : nat) : stable (readUInt k).
Proof. apply (stable_map (readBytes k) le_value), stable_readBytes. Qed.

Lemma stable_readVarint : stable readVarint.
Proof.
  intros br x br' H. unfold readVarint in H.
  destruct (readU8 br) as [[a br1]|e] eqn:E; cbn [bind fst snd] in H; [ | discriminate ].
  destruct (stable_readUInt 1 _ _ _ E) as (D1 & L1 & X1).
  assert (Hread : forall k : nat,
             readUInt k br1 = Ok (x, br') ->
             br_data br' = br_data br
             /\ (br_offset br' <= List.length (br_data br))%nat
             /\ forall more : list byte,
                  readUInt k (mkReader (br_data br ++ more) (br_offset br1))
                    = Ok (x, mkReader (br_data br ++ more) (br_offset br'))).
  { intros k Hk. destruct (stable_readUInt k _ _ _ Hk) as (D2 & L2 & X2).
    rewrite D1 in D2, L2, X2. auto. }
  unfold readVarint.
  destruct (a =? 0xff) eqn:C1.
  { destruct (Hread 8%nat H) as (D & L & X). repeat split; auto.
    intros more. fold readU8. unfold readU8. rewrite X1. cbn [bind fst snd].
    rewrite C1. apply X. }
  destruct (a =? 0xfe) eqn:C2.
  { destruct (Hread 4%nat H) as (D & L & X). repeat split; auto.
    intros more. unfold readU8. rewrite X1. cbn [bind fst snd].
    rewrite C1, C2. apply X. }
  destruct (a =? 0xfd) eqn:C3.
  { destruct (Hread 2%nat H) as (D & L & X). repeat split; auto.
    intros more. unfold readU8. rewrite X1. cbn [bind fst snd].
    rewrite C1, C2, C3. apply X. }
  apply Ok_inj in H. injection H as <- <-.
  repeat split; auto.
  intros more. unfold readU8. rewrite X1. cbn [bind fst snd].
  rewrite C1, C2, C3. reflexivity.
Qed.

Lemma stable_readVarBytes : stable readVarBytes.
Proof.
  apply (stable_bind readVarint (fun n => readBytes (Z.to_nat n))).
  - apply stable_readVarint.
  - intros n. apply stable_readBytes.
Qed.

Lemma stable_Outpoint_fromReader (this : Outpoint) :
  stable (Outpoint_fromReader this).
Proof.
  apply (stable_bind readHash
           (fun h br => i <- readU32 br ;; Ok (mkOutpoint h (fst i), snd i))).
  - apply stable_readBytes.
  - intros h. apply (stable_map readU32 (mkOutpoint h)), stable_readUInt.
Qed.

Lemma stable_fromReader (this : Input) : stable (fromReader this).
Proof.
  apply (stable_bind (Outpoint_fromReader (prevout this))
           (fun p br =>
              s <- readVarBytes br ;;
              q <- readU32 (snd s) ;;
              Ok (mkInput p (Script_fromRaw (script this) (fst s)) (fst q)
                    (witness this), snd q))).
  - apply stable_Outpoint_fromReader.
  - intros p.
    apply (stable_bind readVarBytes
             (fun s br =>
                q <- readU32 br ;;
                Ok (mkInput p (Script_fromRaw (script this) s) (fst q)
                      (witness this), snd q))).
    + apply stable_readVarBytes.
    + intros s.
      apply (stable_map readU32
               (fun q => mkInput p (Script_fromRaw (script this) s) q (witness this))),
        stable_readUInt.
Qed.

(* ------------------------------------------------------------------ *)
(** ** Encoding, decoding and what lies between *)

Lemma toRaw_wire (i : Input) :
  blen (hash (prevout i)) = 32 -> toRaw i = Ok (wire i).
Proof. apply toRaw_layout. Qed.

Lemma wire_length (i : Input) :
  blen (hash (prevout i)) = 32 -> blen (wire i) = getSize i.
Proof. intros Hh. apply toRaw_length, toRaw_wire, Hh. Qed.

(** The Input as the wire carries it: index and sequence modulo 2^32. *)
Lemma wire_wraps (i : Input) :
  wire i = wire (mkInput (mkOutpoint (hash (prevout i)) (index (prevout i) mod 2 ^ 32))
                   (script i) (sequence i mod 2 ^ 32) (witness i)).
Proof.
  unfold wire. cbn [prevout script sequence hash index].
  rewrite (le_bytes_mod 4 (index (prevout i))), (le_bytes_mod 4 (sequence i)).
  reflexivity.
Qed.

Lemma fromReader_wire_wraps (this i : Input) (br : BufferReader) (tl : list byte) :
  blen (hash (prevout i)) = 32 ->
  blen (raw (script i)) < 2 ^ 64 ->
  unread br (wire i ++ tl) ->
  exists br',
    fromReader this br =
      Ok (mkInput (mkOutpoint (hash (prevout i)) (index (prevout i) mod 2 ^ 32))
            (script i) (sequence i mod 2 ^ 32) (witness this), br')
    /\ unread br' tl.
Proof.
  intros Hh Hl Hu. rewrite wire_wraps in Hu.
  apply (fromReader_wire this
           (mkInput (mkOutpoint (hash (prevout i)) (index (prevout i) mod 2 ^ 32))
              (script i) (sequence i mod 2 ^ 32) (witness i)));
    cbn [prevout script sequence hash index]; try assumption.
  - apply Z.mod_pos_bound. lia.
  - apply Z.mod_pos_bound. lia.
  - unfold wire in Hu. cbn [prevout script sequence hash index] in Hu.
    rewrite <- !app_assoc in Hu. exact Hu.
Qed.

(** Whatever the index and the sequence of an Input are, its encoding
    decodes, and what comes back is the Input with both reduced modulo 2^32
    and with the empty witness. *)
Lemma fromRaw_toRaw_wraps (i : Input) :
  blen (hash (prevout i)) = 32 ->
  blen (raw (script i)) < 2 ^ 64 ->
  exists buf : list byte,
    toRaw i = Ok buf
    /\ Input_fromRaw buf =
         Ok (mkInput (mkOutpoint (hash (prevout i)) (index (prevout i) mod 2 ^ 32))
               (script i) (sequence i mod 2 ^ 32) Witness_new).
Proof.
  intros Hh Hl. exists (wire i). split; [apply toRaw_wire, Hh | ].
  unfold Input_fromRaw, fromRaw.
  destruct (fromReader_wire_wraps Input_new i (BufferReader_new (wire i)) [] Hh Hl)
    as (br' & R & _).
  { rewrite app_nil_r. apply unread_new. }
  rewrite R. reflexivity.
Qed.

Lemma fromRaw_toRaw_wraps_witness :
  exists buf : list byte,
    toRaw (mkInput (mkOutpoint (repeat x11 32) (-1)) Script_new (2 ^ 32 + 5) Witness_new)
      = Ok buf
    /\ Input_fromRaw buf =
         Ok (mkInput (mkOutpoint (repeat x11 32) 0xffffffff) Script_new 5 Witness_new).
Proof.
  apply (fromRaw_toRaw_wraps
           (mkInput (mkOutpoint (repeat x11 32) (-1)) Script_new (2 ^ 32 + 5) Witness_new)).
  - reflexivity.
  - vm_compute. reflexivity.
Defined.

(** [toRaw] raises exactly when the outpoint hash does not have its 32
    bytes; otherwise it returns [getSize()] bytes. *)
Lemma toRaw_raises_iff (i : Input) :
  (raises (toRaw i) <-> blen (hash (prevout i)) <> 32)
  /\ (blen (hash (prevout i)) = 32 ->
        exists buf : list byte, toRaw i = Ok buf /\ blen buf = getSize i).
Proof.
  split; [split | ].
  - intros H Hh. rewrite (toRaw_wire i Hh) in H. exact (raises_Ok _ H).
  - intros Hh. unfold toRaw. rewrite (toWriter_bad_hash i _ Hh). apply raises_Throw.
  - intros Hh. exists (wire i). split; [apply toRaw_wire, Hh | apply wire_length, Hh].
Qed.

Lemma toRaw_raises_iff_witness :
  raises (toRaw (mkInput (mkOutpoint [x00; x01] 0) Script_new 0 Witness_new)).
Proof.
  apply (proj2 (proj1 (toRaw_raises_iff
                         (mkInput (mkOutpoint [x00; x01] 0) Script_new 0 Witness_new)))).
  vm_compute. discriminate.
Defined.

(** Two Inputs that the wire can carry and that have the same encoding have
    the same prevout, script and sequence. *)
Theorem toRaw_injective (i1 i2 : Input) (buf : list byte) :
  wire_valid i1 -> wire_valid i2 ->
  toRaw i1 = Ok buf -> toRaw i2 = Ok buf ->
  prevout i1 = prevout i2 /\ script i1 = script i2 /\ sequence i1 = sequence i2.
Proof.
  intros (Hh1 & Hi1 & Hs1 & Hl1) (Hh2 & Hi2 & Hs2 & Hl2) E1 E2.
  pose proof (fromRaw_toRaw i1 buf Hh1 Hi1 Hs1 Hl1 E1) as D1.
  pose proof (fromRaw_toRaw i2 buf Hh2 Hi2 Hs2 Hl2 E2) as D2.
  rewrite D1 in D2. apply Ok_inj in D2. injection D2 as -> -> ->. auto.
Qed.

Lemma toRaw_injective_witness :
  prevout Sample.input = prevout Sample.unsigned
  /\ script Sample.input = script Sample.unsigned
  /\ sequence Sample.input = sequence Sample.unsigned.
Proof.
  assert (V : wire_valid Sample.input).
  { repeat split; try reflexivity; vm_compute; discriminate. }
  apply (toRaw_injective Sample.input Sample.unsigned (wire Sample.input) V V);
    reflexivity.
Defined.

(** Bytes that follow an Input in the buffer are not looked at: a buffer
    that decodes still decodes, to the same Input, when more bytes follow. *)
Theorem fromRaw_ignores_trailing (data more : list byte) (i : Input) :
  Input_fromRaw data = Ok i -> Input_fromRaw (data ++ more) = Ok i.
Proof.
  unfold Input_fromRaw, fromRaw.
  destruct (fromReader Input_new (BufferReader_new data)) as [[x br']|e] eqn:E;
    cbn [bind fst]; [ | discriminate ].
  intros H. apply Ok_inj in H. subst x.
  destruct (stable_fromReader Input_new _ _ _ E) as (_ & _ & X).
  specialize (X more). cbn [BufferReader_new br_data br_offset] in X.
  unfold BufferReader_new. rewrite X. reflexivity.
Qed.

Lemma fromRaw_ignores_trailing_witness :
  Input_fromRaw (wire Sample.input ++ [xde; xad; xbe; xef]) = Ok Sample.unsigned.
Proof.
  apply (fromRaw_ignores_trailing (wire Sample.input)). vm_compute. reflexivity.
Defined.

(** No proper prefix of an encoding decodes: cut anywhere, [Input.fromRaw]
    raises. *)
Theorem fromRaw_truncated_raises (i : Input) (buf : list byte) (k : nat) :
  blen (raw (script i)) < 2 ^ 64 ->
  toRaw i = Ok buf ->
  (k < List.length buf)%nat ->
  raises (Input_fromRaw (firstn k buf)).
Proof.
  intros Hl E Hk.
  assert (Hh : blen (hash (prevout i)) = 32).
  { destruct (Z.eq_dec (blen (hash (prevout i))) 32) as [Hh|Hh]; [exact Hh | ].
    unfold toRaw in E. rewrite (toWriter_bad_hash i _ Hh) in E. discriminate. }
  rewrite (toRaw_wire i Hh) in E. apply Ok_inj in E. subst buf.
  unfold Input_fromRaw, fromRaw.
  destruct (fromReader Input_new (BufferReader_new (firstn k (wire i))))
    as [[x br']|e] eqn:Ecut; cbn [bind]; [ | apply raises_Throw ].
  exfalso.
  destruct (stable_fromReader Input_new _ _ _ Ecut) as (_ & L & X).
  specialize (X (skipn k (wire i))).
  cbn [BufferReader_new br_data br_offset] in L, X.
  rewrite firstn_skipn in X.
  destruct (fromReader_wire_wraps Input_new i (BufferReader_new (wire i)) [] Hh Hl)
    as (br2 & R & (L2 & S2)).
  { rewrite app_nil_r. apply unread_new. }
  unfold BufferReader_new in R. rewrite R in X.
  apply Ok_inj in X. injection X as _ Hbr. subst br2.
  cbn [br_data br_offset] in L2, S2.
  pose proof (f_equal (@List.length byte) S2) as S3.
  rewrite length_skipn in S3. cbn [List.length] in S3.
  rewrite length_firstn in L. lia.
Qed.

Lemma fromRaw_truncated_raises_witness :
  raises (Input_fromRaw (firstn 75 (wire Sample.input))).
Proof.
  apply (fromRaw_truncated_raises Sample.input (wire Sample.input) 75).
  - vm_compute. reflexivity.
  - reflexivity.
  - vm_compute. lia.
Defined.

(** Inputs are self-delimiting: from the encodings of two Inputs one after
    the other, two reads give the first and then the second, and leave the
    reader at the end of the buffer. *)
Theorem fromReader_back_to_back (i1 i2 : Input) (b1 b2 : list byte) :
  wire_valid i1 -> wire_valid i2 ->
  toRaw i1 = Ok b1 -> toRaw i2 = Ok b2 ->
  exists br1 br2 : BufferReader,
    Input_fromReader (BufferReader_new (b1 ++ b2))
      = Ok (mkInput (prevout i1) (script i1) (sequence i1) Witness_new, br1)
    /\ Input_fromReader br1
         = Ok (mkInput (prevout i2) (script i2) (sequence i2) Witness_new, br2)
    /\ br_offset br2 = List.length (b1 ++ b2).
Proof.
  intros (Hh1 & Hi1 & Hs1 & Hl1) (Hh2 & Hi2 & Hs2 & Hl2) E1 E2.
  rewrite (toRaw_layout i1 Hh1) in E1. rewrite (toRaw_layout i2 Hh2) in E2.
  apply Ok_inj in E1, E2. subst b1 b2. unfold Input_fromReader.
  destruct (fromReader_wire Input_new i1
              (BufferReader_new
                 ((hash (prevout i1) ++ le_bytes 4 (index (prevout i1))
                     ++ varint_bytes (blen (raw (script i1))) ++ raw (script i1)
                     ++ le_bytes 4 (sequence i1)) ++ wire i2))
              (wire i2) Hh1 Hi1 Hs1 Hl1) as (br1 & R1 & U1).
  { rewrite <- !app_assoc. apply unread_new. }
  destruct (fromReader_wire Input_new i2 br1 [] Hh2 Hi2 Hs2 Hl2) as (br2 & R2 & U2).
  { rewrite app_nil_r. exact U1. }
  exists br1, br2. split; [exact R1 | ]. split; [exact R2 | ].
  destruct (stable_fromReader _ _ _ _ R1) as (D1 & _ & _).
  destruct (stable_fromReader _ _ _ _ R2) as (D2 & _ & _).
  destruct U2 as (L2 & S2). rewrite D2, D1 in L2, S2.
  cbn [BufferReader_new br_data] in L2, S2.
  pose proof (f_equal (@List.length byte) S2) as S3.
  rewrite length_skipn in S3. cbn [List.length] in S3.
  fold (wire i2). lia.
Qed.

Lemma fromReader_back_to_back_witness :
  exists br1 br2 : BufferReader,
    Input_fromReader (BufferReader_new (wire Sample.input ++ wire Sample.direct))
      = Ok (mkInput (prevout Sample.input) (script Sample.input)
              (sequence Sample.input) Witness_new, br1)
    /\ Input_fromReader br1
         = Ok (mkInput (prevout Sample.direct) (script Sample.direct)
                 (sequence Sample.direct) Witness_new, br2)
    /\ br_offset br2 = List.length (wire Sample.input ++ wire Sample.direct).
Proof.
  apply (fromReader_back_to_back Sample.input Sample.direct).
  - repeat split; try reflexivity; vm_compute; discriminate.
  - repeat split; try reflexivity; vm_compute; discriminate.
  - reflexivity.
  - reflexivity.
Defined.

Lemma readBytes_length (n : nat) (br br' : BufferReader) (bs : list byte) :
  readBytes n br = Ok (bs, br') -> List.length bs = n.
Proof.
  unfold readBytes, assert.
  destruct (Nat.leb_spec (br_offset br + n) (List.length (br_data br))) as [Hle|];
    cbn [bind]; [ | discriminate ].
  intros H. apply Ok_inj in H. injection H as <- _.
  rewrite length_firstn, length_skipn. lia.
Qed.

Lemma le_value_bound (bs : list byte) :
  0 <= le_value bs < 2 ^ (8 * Z.of_nat (List.length bs)).
Proof.
  induction bs as [|b bs IH].
  - cbn. lia.
  - cbn [le_value List.length]. pose proof (Z_of_byte_range b) as Hb.
    rewrite lor_shiftl_8 by lia.
    replace (8 * Z.of_nat (S (List.length bs)))
      with (8 + 8 * Z.of_nat (List.length bs)) by lia.
    rewrite Z.pow_add_r by lia. change (2 ^ 8) with 256. lia.
Qed.

Lemma readUInt_bound (k : nat) (br br' : BufferReader) (v : Z) :
  readUInt k br = Ok (v, br') -> 0 <= v < 2 ^ (8 * Z.of_nat k).
Proof.
  unfold readUInt.
  destruct (readBytes k br) as [[bs br1]|e] eqn:E; cbn [bind fst snd];
    [ | discriminate ].
  intros H. apply Ok_inj in H. injection H as <- _.
  rewrite <- (readBytes_length _ _ _ _ E). apply le_value_bound.
Qed.

Lemma readVarint_bound (br br' : BufferReader) (v : Z) :
  readVarint br = Ok (v, br') -> 0 <= v < 2 ^ 64.
Proof.
  unfold readVarint.
  destruct (readU8 br) as [[a br1]|e] eqn:E; cbn [bind fst snd]; [ | discriminate ].
  pose proof (readUInt_bound 1 _ _ _ E) as Ba.
  destruct (a =? 0xff); [intros H; apply (readUInt_bound 8 _ _ _ H) | ].
  destruct (a =? 0xfe);
    [intros H; pose proof (readUInt_bound 4 _ _ _ H) as B; simpl in B; lia | ].
  destruct (a =? 0xfd);
    [intros H; pose proof (readUInt_bound 2 _ _ _ H) as B; simpl in B; lia | ].
  intros H. apply Ok_inj in H. injection H as <- _. simpl in Ba. lia.
Qed.

(** Whatever buffer it was read from, a decoded Input is one that the wire
    can carry, with the empty witness: encoding it and decoding again gives
    it back. *)
Theorem fromRaw_yields_valid (data : list byte) (i : Input) :
  Input_fromRaw data = Ok i ->
  wire_valid i
  /\ witness i = Witness_new
  /\ exists buf : list byte, toRaw i = Ok buf /\ Input_fromRaw buf = Ok i.
Proof.
  unfold Input_fromRaw at 1. unfold fromRaw, fromReader, Outpoint_fromReader.
  destruct (readHash (BufferReader_new data)) as [[h br1]|e] eqn:E1;
    cbn [bind fst snd]; [ | discriminate ].
  destruct (readU32 br1) as [[ix br2]|e] eqn:E2; cbn [bind fst snd]; [ | discriminate ].
  destruct (readVarBytes br2) as [[s br3]|e] eqn:E3; cbn [bind fst snd];
    [ | discriminate ].
  destruct (readU32 br3) as [[q br4]|e] eqn:E4; cbn [bind fst snd]; [ | discriminate ].
  intros H. apply Ok_inj in H. subst i.
  assert (V : wire_valid (mkInput (mkOutpoint h ix) (Script_fromRaw (script Input_new) s)
                            q (witness Input_new))).
  { unfold wire_valid. cbn [prevout script sequence hash index Script_fromRaw raw].
    split; [ | split; [ | split ] ].
    - unfold blen. rewrite (readBytes_length _ _ _ _ E1). reflexivity.
    - apply (readUInt_bound 4 _ _ _ E2).
    - apply (readUInt_bound 4 _ _ _ E4).
    - unfold readVarBytes in E3.
      destruct (readVarint br2) as [[n br2']|e] eqn:E3'; cbn [bind fst snd] in E3;
        [ | discriminate ].
      pose proof (readVarint_bound _ _ _ E3') as Bn.
      unfold blen. rewrite (readBytes_length _ _ _ _ E3). lia. }
  split; [exact V | ]. split; [reflexivity | ].
  destruct V as (Hh & Hi & Hs & Hl).
  eexists. split; [apply toRaw_layout, Hh | ].
  apply (fromRaw_toRaw _ _ Hh Hi Hs Hl (toRaw_layout _ Hh)).
Qed.

Lemma fromRaw_yields_valid_witness :
  wire_valid Sample.unsigned
  /\ witness Sample.unsigned = Witness_new
  /\ exists buf : list byte,
       toRaw Sample.unsigned = Ok buf /\ Input_fromRaw buf = Ok Sample.unsigned.
Proof.
  apply (fromRaw_yields_valid (wire Sample.input ++ [x00])).
  vm_compute. reflexivity.
Defined.

(* ================================================================== *)
(** * Inputs made from a transaction *)

Section FromTX.

Variable TX : Type.
Variable TX_hash : TX -> list byte.
Variable TX_outputs_length : TX -> nat.

Lemma fromTX_in_range (this : Input) (tx : TX) (ix : Z) :
  ix < Z.of_nat (TX_outputs_length tx) ->
  fromTX TX TX_hash TX_outputs_length this tx ix
    = Ok (mkInput (mkOutpoint (TX_hash tx) ix)
            (script this) (sequence this) (witness this)).
Proof.
  intros H. unfold fromTX, assert.
  rewrite (proj2 (Z.ltb_lt _ _) H). reflexivity.
Qed.

(** [fromTX] checks the index against the number of outputs from above
    only: it raises exactly when the index is not below it, and otherwise
    sets the prevout and leaves script, sequence and witness alone. *)
Theorem fromTX_raises_iff (this : Input) (tx : TX) (ix : Z) :
  (raises (fromTX TX TX_hash TX_outputs_length this tx ix)
     <-> Z.of_nat (TX_outputs_length tx) <= ix)
  /\ (ix < Z.of_nat (TX_outputs_length tx) ->
        fromTX TX TX_hash TX_outputs_length this tx ix
          = Ok (mkInput (mkOutpoint (TX_hash tx) ix)
                  (script this) (sequence this) (witness this))).
Proof.
  unfold fromTX, assert.
  destruct (Z.ltb_spec ix (Z.of_nat (TX_outputs_length tx))) as [Hlt|Hge];
    cbn [bind].
  - split; [ | reflexivity ].
    split; [intros H; destruct (raises_Ok _ H) | lia].
  - split; [ | lia ].
    split; [intros _; exact Hge | intros _; apply raises_Throw].
Qed.

(** An Input made from an existing output of a transaction (one with fewer
    than 2^32 outputs) is not a coinbase Input, is final and not
    replaceable, and its encoding decodes to itself. *)
Theorem fromTX_existing_output (tx : TX) (ix : Z) :
  blen (TX_hash tx) = 32 ->
  Z.of_nat (TX_outputs_length tx) < 2 ^ 32 ->
  0 <= ix < Z.of_nat (TX_outputs_length tx) ->
  exists (i : Input) (buf : list byte),
    Input_fromTX TX TX_hash TX_outputs_length tx ix = Ok i
    /\ prevout i = mkOutpoint (TX_hash tx) ix
    /\ isCoinbase i = false
    /\ isFinal i = true
    /\ isRBF i = false
    /\ toRaw i = Ok buf
    /\ Input_fromRaw buf = Ok i.
Proof.
  intros Hh Hn Hix.
  exists (mkInput (mkOutpoint (TX_hash tx) ix) Script_new 0xffffffff Witness_new).
  eexists. unfold Input_fromTX.
  rewrite (fromTX_in_range Input_new tx ix) by lia.
  split; [reflexivity | ]. split; [reflexivity | ].
  split.
  { unfold isCoinbase, Outpoint_isNull. cbn [prevout index].
    destruct (Z.eqb_spec ix 0xffffffff) as [E|]; [ | reflexivity ].
    change (2 ^ 32) with 4294967296 in Hn. lia. }
  split; [reflexivity | ]. split; [reflexivity | ].
  split; [apply toRaw_layout; exact Hh | ].
  apply (fromRaw_toRaw
           (mkInput (mkOutpoint (TX_hash tx) ix) Script_new 0xffffffff Witness_new));
    cbn [prevout script sequence hash index raw Script_new];
    [ exact Hh | change (2 ^ 32) with 4294967296 in *; lia | vm_compute; split; congruence
    | vm_compute; reflexivity | apply toRaw_layout; exact Hh ].
Qed.

(** A negative index passes the check of [fromTX]; on the wire it wraps, so
    that the encoded Input points at output [index + 2^32]. *)
Lemma fromTX_negative_index_wraps (tx : TX) (ix : Z) :
  blen (TX_hash tx) = 32 ->
  - 2 ^ 32 <= ix < 0 ->
  exists (i : Input) (buf : list byte),
    Input_fromTX TX TX_hash TX_outputs_length tx ix = Ok i
    /\ index (prevout i) = ix
    /\ toRaw i = Ok buf
    /\ Input_fromRaw buf =
         Ok (mkInput (mkOutpoint (TX_hash tx) (ix + 2 ^ 32))
               Script_new 0xffffffff Witness_new).
Proof.
  intros Hh Hix.
  exists (mkInput (mkOutpoint (TX_hash tx) ix) Script_new 0xffffffff Witness_new).
  unfold Input_fromTX.
  rewrite (fromTX_in_range Input_new tx ix) by lia.
  destruct (fromRaw_toRaw_wraps
              (mkInput (mkOutpoint (TX_hash tx) ix) Script_new 0xffffffff Witness_new))
    as (buf & E & D); [exact Hh | vm_compute; reflexivity | ].
  exists buf. split; [reflexivity | ]. split; [reflexivity | ].
  split; [exact E | ]. rewrite D. cbn [prevout script sequence hash index].
  replace (ix mod 2 ^ 32) with (ix + 2 ^ 32).
  - reflexivity.
  - change (2 ^ 32) with 4294967296 in *.
    apply Z.mod_unique with (q := -1); [left; lia | lia].
Qed.

End FromTX.

Lemma fromTX_raises_iff_witness :
  raises (fromTX (list byte * nat) fst snd Input_new (repeat x33 32, 2%nat) 2).
Proof.
  apply (proj2 (proj1 (fromTX_raises_iff (list byte * nat) fst snd Input_new
                         (repeat x33 32, 2%nat) 2))).
  simpl. lia.
Defined.

Lemma fromTX_existing_output_witness :
  exists (i : Input) (buf : list byte),
    Input_fromTX (list byte * nat) fst snd (repeat x33 32, 2%nat) 1 = Ok i
    /\ prevout i = mkOutpoint (repeat x33 32) 1
    /\ isCoinbase i = false
    /\ isFinal i = true
    /\ isRBF i = false
    /\ toRaw i = Ok buf
    /\ Input_fromRaw buf = Ok i.
Proof.
  apply (fromTX_existing_output (list byte * nat) fst snd (repeat x33 32, 2%nat) 1).
  - reflexivity.
  - vm_compute. reflexivity.
  - simpl. lia.
Defined.

Lemma fromTX_negative_index_wraps_witness :
  exists (i : Input) (buf : list byte),
    Input_fromTX (list byte * nat) fst snd (repeat x33 32, 2%nat) (-1) = Ok i
    /\ index (prevout i) = -1
    /\ toRaw i = Ok buf
    /\ Input_fromRaw buf =
         Ok (mkInput (mkOutpoint (repeat x33 32) (-1 + 2 ^ 32))
               Script_new 0xffffffff Witness_new).
Proof.
  apply (fromTX_negative_index_wraps (list byte * nat) fst snd (repeat x33 32, 2%nat) (-1)).
  - reflexivity.
  - simpl. lia.
Defined.

(* ================================================================== *)
(** * Inputs made from options *)

Lemma truthy_prop_truthy (v : JsVal) (k : string) :
  truthy (get_prop v k) = true -> truthy v = true.
Proof. destruct v; cbn [get_prop truthy]; try discriminate. reflexivity. Qed.

Section FromOptions.

Context {Po : Part.FromOptions Outpoint}.
Context {Ps : Part.FromOptions Script}.
Context {Pw : Part.FromOptions Witness}.

(** Without options the constructor gives the default Input and does not
    raise, where [Input.fromOptions] raises; with options the two agree.  The
    default Input is final. *)
Theorem constructor_without_options (options : JsVal) :
  (truthy options = false ->
     Input_constructor options = Ok Input_new
     /\ raises (Input_fromOptions options)
     /\ isFinal Input_new = true)
  /\ (truthy options = true ->
        Input_constructor options = Input_fromOptions options).
Proof.
  unfold Input_constructor, Input_fromOptions. split; intros H; rewrite H.
  - split; [reflexivity | ]. split; [ | reflexivity ].
    unfold fromOptions, assert. rewrite H. apply raises_Throw.
  - reflexivity.
Qed.

(** Options need a prevout: without one [fromOptions] raises.  With a
    prevout that its decoder accepts and nothing else, [Input.fromOptions]
    gives that prevout with the empty script, the empty witness and sequence
    0xffffffff: a final Input that is not replaceable. *)
Theorem fromOptions_prevout_only (options : JsVal) :
  (forall this : Input,
      truthy (get_prop options "prevout") = false -> raises (fromOptions this options))
  /\ (forall p : Outpoint,
        truthy (get_prop options "prevout") = true ->
        Part.fromOptions Outpoint_new (get_prop options "prevout") = Ok p ->
        truthy (get_prop options "script") = false ->
        not_null (get_prop options "sequence") = false ->
        truthy (get_prop options "witness") = false ->
        Input_fromOptions options = Ok (mkInput p Script_new 0xffffffff Witness_new)
        /\ isFinal (mkInput p Script_new 0xffffffff Witness_new) = true
        /\ isRBF (mkInput p Script_new 0xffffffff Witness_new) = false).
Proof.
  split.
  - intros this H. unfold fromOptions, assert. rewrite H.
    destruct (truthy options); apply raises_Throw.
  - intros p Ht Hp Hs Hq Hw. split; [ | split; reflexivity ].
    unfold Input_fromOptions, fromOptions, assert.
    rewrite (truthy_prop_truthy _ _ Ht), Ht. cbn [bind Input_new prevout].
    rewrite Hp, Hs, Hq, Hw. reflexivity.
Qed.

(** The sequence of the options: one that is there ([!= null]) and is not a
    number makes [fromOptions] raise; a number is taken as it is, zero
    included; [null] or [undefined] leave the receiver's sequence. *)
Theorem fromOptions_sequence (this : Input) (options : JsVal) :
  (not_null (get_prop options "sequence") = true ->
     util_isNumber (get_prop options "sequence") = false ->
     raises (fromOptions this options))
  /\ (forall i : Input,
        fromOptions this options = Ok i ->
        (forall z : Z, get_prop options "sequence" = JNum z -> sequence i = z)
        /\ (not_null (get_prop options "sequence") = false ->
              sequence i = sequence this)).
Proof.
  unfold fromOptions, assert.
  destruct (truthy options); cbn [bind];
    [ | split; [intros; apply raises_Throw | discriminate] ].
  destruct (truthy (get_prop options "prevout")); cbn [bind];
    [ | split; [intros; apply raises_Throw | discriminate] ].
  destruct (Part.fromOptions (prevout this) _) as [p|e]; cbn [bind];
    [ | split; [intros; apply raises_Throw | discriminate] ].
  destruct (if truthy (get_prop options "script")
            then Part.fromOptions (script this) (get_prop options "script")
            else Ok (script this)) as [s|e]; cbn [bind];
    [ | split; [intros; apply raises_Throw | discriminate] ].
  destruct (not_null (get_prop options "sequence")) eqn:Hn.
  - destruct (util_isNumber (get_prop options "sequence")) eqn:Hu; cbn [bind].
    + destruct (if truthy (get_prop options "witness")
                then Part.fromOptions (witness this) (get_prop options "witness")
                else Ok (witness this)) as [w|e]; cbn [bind];
        [ | split; [discriminate | discriminate] ].
      split; [discriminate | ].
      intros i H. apply Ok_inj in H. subst i. cbn [sequence].
      split; [ | discriminate ].
      intros z Hz. rewrite Hz. reflexivity.
    + split; [intros; apply raises_Throw | discriminate].
  - cbn [bind].
    destruct (if truthy (get_prop options "witness")
              then Part.fromOptions (witness this) (get_prop options "witness")
              else Ok (witness this)) as [w|e]; cbn [bind];
      [ | split; [discriminate | discriminate] ].
    split; [discriminate | ].
    intros i H. apply Ok_inj in H. subst i. cbn [sequence].
    split; [ | reflexivity ].
    intros z Hz. rewrite Hz in Hn. discriminate.
Qed.

End FromOptions.

Lemma constructor_without_options_witness :
  Input_constructor (Po := ReferenceOptions.outpoint_options)
    (Ps := ReferenceOptions.script_options) (Pw := ReferenceOptions.witness_options)
    JUndefined = Ok Input_new
  /\ raises (Input_fromOptions (Po := ReferenceOptions.outpoint_options)
               (Ps := ReferenceOptions.script_options)
               (Pw := ReferenceOptions.witness_options) JUndefined)
  /\ isFinal Input_new = true.
Proof.
  apply (proj1 (constructor_without_options (Po := ReferenceOptions.outpoint_options)
                  (Ps := ReferenceOptions.script_options)
                  (Pw := ReferenceOptions.witness_options) JUndefined)).
  reflexivity.
Defined.

Lemma fromOptions_prevout_only_witness :
  Input_fromOptions (Po := ReferenceOptions.outpoint_options)
    (Ps := ReferenceOptions.script_options) (Pw := ReferenceOptions.witness_options)
    ReferenceOptions.prevout_only
    = Ok (mkInput (mkOutpoint (repeat x44 32) 7) Script_new 0xffffffff Witness_new)
  /\ isFinal (mkInput (mkOutpoint (repeat x44 32) 7) Script_new 0xffffffff Witness_new)
       = true
  /\ isRBF (mkInput (mkOutpoint (repeat x44 32) 7) Script_new 0xffffffff Witness_new)
       = false.
Proof.
  apply (proj2 (fromOptions_prevout_only (Po := ReferenceOptions.outpoint_options)
                  (Ps := ReferenceOptions.script_options)
                  (Pw := ReferenceOptions.witness_options)
                  ReferenceOptions.prevout_only)
           (mkOutpoint (repeat x44 32) 7));
    vm_compute; reflexivity.
Defined.

Lemma fromOptions_sequence_witness :
  raises (fromOptions (Po := ReferenceOptions.outpoint_options)
            (Ps := ReferenceOptions.script_options)
            (Pw := ReferenceOptions.witness_options)
            Input_new ReferenceOptions.sequence_text)
  /\ sequence (mkInput (mkOutpoint (repeat x44 32) 7) Script_new 0 Witness_new) = 0.
Proof.
  split.
  - apply (proj1 (fromOptions_sequence (Po := ReferenceOptions.outpoint_options)
                    (Ps := ReferenceOptions.script_options)
                    (Pw := ReferenceOptions.witness_options)
                    Input_new ReferenceOptions.sequence_text));
      reflexivity.
  - apply (proj1 (proj2 (fromOptions_sequence (Po := ReferenceOptions.outpoint_options)
                           (Ps := ReferenceOptions.script_options)
                           (Pw := ReferenceOptions.witness_options)
                           Input_new ReferenceOptions.sequence_zero)
                    (mkInput (mkOutpoint (repeat x44 32) 7) Script_new 0 Witness_new)
                    ltac:(vm_compute; reflexivity)) 0).
    reflexivity.
Defined.

(* ================================================================== *)
(** * More on the JSON form, the formatted view and the address hash *)

Section JsonMore.

Context {W : Collaborators}.

(** [fromJSON] reads the prevout, script, witness and sequence of the
    object and nothing else: two objects that agree on the four (and on being
    there at all) are decoded alike, whatever address, coin or other fields
    they carry. *)
Theorem fromJSON_reads_four_fields (this : Input) (json json' : JsVal) :
  truthy json = truthy json' ->
  get_prop json "prevout" = get_prop json' "prevout" ->
  get_prop json "script" = get_prop json' "script" ->
  get_prop json "witness" = get_prop json' "witness" ->
  get_prop json "sequence" = get_prop json' "sequence" ->
  fromJSON this json = fromJSON this json'.
Proof.
  intros Ht Hp Hs Hw Hq. rewrite !fromJSON_cases, Ht, Hp, Hs, Hw, Hq. reflexivity.
Qed.

(** The prevout, script, witness and sequence that [getJSON] writes do not
    depend on the network or on the coin. *)
Lemma getJSON_parts (i : Input) (n : option NetworkArg) (c : option Coin) :
  get_prop (getJSON i n c) "prevout" = Cap.toJSON (prevout i)
  /\ get_prop (getJSON i n c) "script" = Cap.toJSON (script i)
  /\ get_prop (getJSON i n c) "witness" = Cap.toJSON (witness i)
  /\ get_prop (getJSON i n c) "sequence" = JNum (sequence i).
Proof. repeat split. Qed.

Variable valid_outpoint : Outpoint -> Prop.
Variable valid_script : Script -> Prop.
Variable valid_witness : Witness -> Prop.

Context {Lo : JsonLaws Outpoint Outpoint_new valid_outpoint}.
Context {Ls : JsonLaws Script Script_new valid_script}.
Context {Lw : JsonLaws Witness Witness_new valid_witness}.

(** The detailed form decodes as well: for every network and with or
    without a coin, [Input.fromJSON] of [getJSON(network, coin)] is the Input,
    and the object decodes like the one that [toJSON] gives. *)
Theorem getJSON_roundtrip (i : Input) (n : option NetworkArg) (c : option Coin) :
  valid_outpoint (prevout i) ->
  valid_script (script i) ->
  valid_witness (witness i) ->
  Input_fromJSON (getJSON i n c) = Ok i
  /\ Input_fromJSON (getJSON i n c) = Input_fromJSON (toJSON i n c).
Proof.
  intros Ho Hs Hw.
  rewrite (Input_fromJSON_getJSON valid_outpoint valid_script valid_witness i n c Ho Hs Hw).
  split; [reflexivity | ]. unfold toJSON.
  rewrite (Input_fromJSON_getJSON valid_outpoint valid_script valid_witness
             i None None Ho Hs Hw).
  reflexivity.
Qed.

End JsonMore.

Lemma fromJSON_reads_four_fields_witness :
  fromJSON (W := Sample.world) Input_new
    (getJSON (W := Sample.world) Sample.input None None)
  = fromJSON (W := Sample.world) Input_new
      (getJSON (W := Sample.world) Sample.input (Some Reference.testnet)
         (Some Sample.coin)).
Proof.
  apply (fromJSON_reads_four_fields (W := Sample.world)); reflexivity.
Defined.

Lemma getJSON_roundtrip_witness :
  Input_fromJSON (W := Sample.world)
    (getJSON (W := Sample.world) Sample.input (Some Reference.testnet) (Some Sample.coin))
    = Ok Sample.input
  /\ Input_fromJSON (W := Sample.world)
       (getJSON (W := Sample.world) Sample.input (Some Reference.testnet)
          (Some Sample.coin))
     = Input_fromJSON (W := Sample.world)
         (toJSON (W := Sample.world) Sample.input (Some Reference.testnet)
            (Some Sample.coin)).
Proof.
  apply (getJSON_roundtrip (W := Sample.world)
           Reference.valid_outpoint Reference.valid_script Reference.valid_witness
           (Lo := ReferenceLaws.Outpoint_laws _ _ _)
           (Ls := ReferenceLaws.Script_laws _ _ _)
           (Lw := ReferenceLaws.Witness_laws _ _ _)).
  - unfold Reference.valid_outpoint. simpl. lia.
  - exact I.
  - split; [ vm_compute; reflexivity | ].
    repeat constructor; vm_compute; reflexivity.
Defined.

Section Views.

Context {W : Collaborators}.

Variable Hash : Type.
Variable Enc : Type.
Variable Address_getHash : Address -> option Enc -> Hash.

Lemma getSubtype_none_iff (i : Input) (c : option Coin) (st : option string) :
  getSubtype i c = Ok st -> (st = None <-> getRedeem i c = None).
Proof.
  unfold getSubtype, getRedeem.
  destruct (isCoinbase i).
  - intros H. apply Ok_inj in H. subst st. tauto.
  - fold (getRedeem i c).
    match goal with |- context [match ?r with Some _ => _ | None => _ end] =>
      destruct r as [redeem|] eqn:E end.
    + destruct (typeName (Script_getType redeem)) as [name|e]; cbn [bind];
        [ | discriminate ].
      intros H. apply Ok_inj in H. subst st. split; discriminate.
    + intros H. apply Ok_inj in H. subst st. tauto.
Qed.

(** What [format] shows hangs together: when it returns, its redeem script,
    address and type are those of [getRedeem], [getAddress] and [getType] for
    the same coin, the coin is the one given (or null), and a subtype is
    shown exactly when a redeem script is. *)
Theorem format_consistent (i : Input) (c : option Coin) (f : Format) :
  format i c = Ok f ->
  getType i c = Ok (fmt_type f)
  /\ fmt_redeem f = getRedeem i c
  /\ fmt_address f = getAddress i c
  /\ fmt_coin f = c
  /\ (fmt_subtype f = None <-> fmt_redeem f = None).
Proof.
  unfold format.
  destruct (getType i c) as [t|e]; cbn [bind]; [ | discriminate ].
  destruct (getSubtype i c) as [st|e] eqn:Est; cbn [bind]; [ | discriminate ].
  intros H. apply Ok_inj in H. subst f.
  cbn [fmt_type fmt_redeem fmt_address fmt_coin fmt_subtype].
  repeat split; try reflexivity; apply (getSubtype_none_iff i c st Est).
Qed.

(** With a type table that names every type that the scripts and witnesses
    can have, [format] and [inspect] never raise. *)
Theorem format_total (i : Input) (c : option Coin) :
  (forall s : Script, scriptTypesByVal (Cap.getInputType s) <> None) ->
  (forall w : Witness, scriptTypesByVal (Cap.getInputType w) <> None) ->
  (forall s : Script, scriptTypesByVal (Script_getType s) <> None) ->
  (exists f : Format, format i c = Ok f)
  /\ (exists f : Format, inspect i = Ok f /\ fmt_coin f = None).
Proof.
  intros Hs Hw Ho.
  assert (Hname : forall t : Z, scriptTypesByVal t <> None ->
                    exists name, typeName t = Ok name).
  { intros t Ht. unfold typeName.
    destruct (scriptTypesByVal t) as [name|]; [eauto | contradiction]. }
  assert (Htype : forall c' : option Coin, exists t, getType i c' = Ok t).
  { intros c'. unfold getType. destruct (isCoinbase i); [eauto | ].
    destruct c' as [coin|]; [eauto | ].
    destruct (Nat.ltb 0 (List.length (items (witness i)))); apply Hname; auto. }
  assert (Hsub : forall c' : option Coin, exists st, getSubtype i c' = Ok st).
  { intros c'. unfold getSubtype. destruct (isCoinbase i); [eauto | ].
    destruct (getRedeem i c') as [redeem|]; [ | eauto ].
    destruct (Hname (Script_getType redeem) (Ho redeem)) as (name & ->).
    cbn [bind]. eauto. }
  assert (Hfmt : forall c' : option Coin,
             exists f, format i c' = Ok f /\ fmt_coin f = c').
  { intros c'. unfold format.
    destruct (Htype c') as (t & ->). destruct (Hsub c') as (st & ->).
    cbn [bind]. eexists. split; reflexivity. }
  split.
  - destruct (Hfmt c) as (f & Hf & _). eauto.
  - unfold inspect. apply Hfmt.
Qed.

(** [getHash] has a value exactly when the JSON form written without a coin
    carries an address, and never for a coinbase Input. *)
Theorem getHash_iff_address (i : Input) (enc : option Enc) (n : option NetworkArg) :
  (getHash Hash Enc Address_getHash i enc = None
     <-> get_prop (getJSON i n None) "address" = JUndefined)
  /\ (isCoinbase i = true -> getHash Hash Enc Address_getHash i enc = None).
Proof.
  unfold getHash. cbn [getJSON get_prop lookup_prop String.eqb Ascii.eqb Bool.eqb].
  split.
  - destruct (getAddress i None); split; (discriminate || reflexivity).
  - intros Hc. unfold getAddress. rewrite Hc. reflexivity.
Qed.

(** With a Coin it is the Coin's output script that decides: when it is
    neither a script-hash nor a witness-script-hash there is no redeem script
    and no subtype, whatever the Input's script and witness hold; when it is
    a witness-script-hash itself, the redeem script is the witness's and the
    Input's script is not consulted. *)
Theorem getRedeem_coin_decides (i : Input) (c : Coin) :
  isCoinbase i = false ->
  Script_isScripthash (Coin_script c) = false ->
  (Script_isWitnessScripthash (Coin_script c) = false ->
     getRedeem i (Some c) = None /\ getSubtype i (Some c) = Ok None)
  /\ (Script_isWitnessScripthash (Coin_script c) = true ->
        getRedeem i (Some c) = Cap.getRedeem (witness i)).
Proof.
  intros Hc Hsh.
  assert (R : getRedeem i (Some c) =
              if Script_isWitnessScripthash (Coin_script c)
              then Cap.getRedeem (witness i) else None).
  { unfold getRedeem. rewrite Hc, Hsh.
    destruct (Script_isWitnessScripthash (Coin_script c)); reflexivity. }
  split; intros Hw; rewrite Hw in R.
  - split; [exact R | ]. unfold getSubtype. rewrite Hc, R. reflexivity.
  - exact R.
Qed.

End Views.

Lemma format_consistent_witness :
  exists f : Format (W := Sample.world),
    format (W := Sample.world) Sample.input (Some Sample.coin) = Ok f
    /\ getType (W := Sample.world) Sample.input (Some Sample.coin) = Ok (fmt_type f)
    /\ fmt_redeem f = getRedeem (W := Sample.world) Sample.input (Some Sample.coin)
    /\ fmt_address f = getAddress (W := Sample.world) Sample.input (Some Sample.coin)
    /\ fmt_coin f = Some Sample.coin
    /\ (fmt_subtype f = None <-> fmt_redeem f = None).
Proof.
  eexists. split; [reflexivity | ].
  apply (format_consistent (W := Sample.world) Sample.input (Some Sample.coin)).
  reflexivity.
Defined.

Lemma format_total_witness :
  (exists f : Format (W := Sample.world),
      format (W := Sample.world) Sample.input (Some Sample.coin) = Ok f)
  /\ (exists f : Format (W := Sample.world),
        inspect (W := Sample.world) Sample.input = Ok f /\ fmt_coin f = None).
Proof.
  apply (format_total (W := Sample.world) Sample.input (Some Sample.coin)).
  - intros s. cbn. unfold Reference.Script_getInputType.
    destruct (Reference.Script_isScripthashInput s); discriminate.
  - intros w. cbn. unfold Reference.Witness_getInputType.
    destruct (Reference.Witness_isScripthashInput w); discriminate.
  - intros s. cbn. unfold Reference.outputType.
    destruct (Reference.isScripthash s); [discriminate | ].
    destruct (Reference.isWitnessScripthash s); discriminate.
Defined.

(* ================================================================== *)
(** * The RPC client *)

Section RPCProperties.

Variable Net : Type.
Variable get_network : JsVal -> Exc Net.
Variable rpcPort : Net -> Z.

Lemma default_uri_truthy (net : Net) :
  truthy (JStr ("http://localhost:" ++ number_text (rpcPort net))) = true.
Proof. reflexivity. Qed.

(** A client always has a uri to send to and starts counting at zero:
    without options, or with an empty string, the uri is
    http://localhost:<rpcPort> of the default network; a non-empty string is
    itself the uri. *)
Theorem RPCClient_new_uri (options : JsVal) :
  (forall c : RPCClient Net,
      RPCClient_new Net get_network rpcPort options = Ok c ->
      truthy (rpc_uri Net c) = true /\ rpc_id Net c = 0)
  /\ (forall net : Net,
        get_network JUndefined = Ok net ->
        truthy options = false ->
        RPCClient_new Net get_network rpcPort options
          = Ok (mkRPCClient Net (JObj []) net
                  (JStr ("http://localhost:" ++ number_text (rpcPort net)))
                  JUndefined 0))
  /\ (forall (net : Net) (s : string),
        get_network JUndefined = Ok net ->
        options = JStr s -> s <> EmptyString ->
        RPCClient_new Net get_network rpcPort options
          = Ok (mkRPCClient Net (JObj [("uri"%string, JStr s)]) net (JStr s)
                  JUndefined 0)).
Proof.
  split; [ | split ].
  - intros c. unfold RPCClient_new.
    destruct (get_network _) as [net|e]; cbn [bind]; [ | discriminate ].
    intros H. apply Ok_inj in H. subst c. cbn [rpc_uri rpc_id].
    split; [ | reflexivity ]. unfold js_or.
    destruct (truthy (get_prop _ "uri")) eqn:E; [exact E | apply default_uri_truthy].
  - intros net Hnet Hf. unfold RPCClient_new. rewrite Hf.
    cbn [is_string get_prop lookup_prop]. rewrite Hnet. reflexivity.
  - intros net s Hnet -> Hs. unfold RPCClient_new.
    assert (Ht : truthy (JStr s) = true).
    { cbn [truthy]. destruct s; [contradiction | reflexivity]. }
    rewrite Ht.
    cbn [is_string get_prop lookup_prop String.eqb Ascii.eqb Bool.eqb].
    rewrite Hnet. cbn [bind]. unfold js_or. rewrite Ht. reflexivity.
Qed.

(** How [call] settles on a response: it is rejected exactly when the
    response has a body and a status other than 200 and 400, with the message
    of the body's error when there is one and "Status code: <status>"
    otherwise; a response without a body resolves to undefined whatever its
    status, and any other resolves to the result of the body. *)
Theorem call_response_rejects_iff (res : Response) :
  ((exists reason : JsVal, call_response res = Rejected reason)
     <-> truthy (body res) = true /\ statusCode res <> 200 /\ statusCode res <> 400)
  /\ (forall reason : JsVal,
        call_response res = Rejected reason ->
        reason = if truthy (get_prop (body res) "error")
                 then get_prop (get_prop (body res) "error") "message"
                 else JStr ("Status code: " ++ number_text (statusCode res)))
  /\ (forall value : JsVal,
        call_response res = Resolved value ->
        value = if truthy (body res) then get_prop (body res) "result"
                else JUndefined).
Proof.
  unfold call_response.
  destruct (truthy (body res)); cbn [negb].
  2:{ split; [ | split ].
      - split; [intros [r H]; discriminate | intros [H _]; discriminate].
      - discriminate.
      - intros v H. injection H as <-. reflexivity. }
  destruct (Z.eqb_spec (statusCode res) 400) as [E4|N4].
  { split; [ | split ].
    - split; [intros [r H]; discriminate | intros (_ & _ & H); contradiction].
    - discriminate.
    - intros v H. injection H as <-. reflexivity. }
  destruct (Z.eqb_spec (statusCode res) 200) as [E2|N2]; cbn [negb].
  { split; [ | split ].
    - split; [intros [r H]; discriminate | intros (_ & H & _); contradiction].
    - discriminate.
    - intros v H. injection H as <-. reflexivity. }
  split; [ | split ].
  - split; [auto | intros _].
    destruct (truthy (get_prop (body res) "error")); eauto.
  - intros r H. destruct (truthy (get_prop (body res) "error"));
      injection H as <-; reflexivity.
  - intros v H. destruct (truthy (get_prop (body res) "error")); discriminate.
Qed.

Variable transport : Request -> Response + JsVal.

Lemma map_seq_shift (base : Z) (n : nat) :
  map (fun k => base + Z.of_nat k) (seq 1 n)
  = map (fun k => base + 1 + Z.of_nat k) (seq 0 n).
Proof.
  rewrite <- seq_shift, map_map. apply map_ext. intros k. lia.
Qed.

(** Requests are numbered in the order of the calls: the k-th call on a
    client sends id [id + k], whether or not earlier calls were rejected, and
    after n calls the client's id has advanced by n. *)
Theorem calls_number_requests (this : RPCClient Net) (todo : list (JsVal * JsVal)) :
  map (fun d => rq_json_id (fst d))
      (fst (calls Net transport this todo))
    = map (fun k => rpc_id Net this + Z.of_nat k) (seq 0 (List.length todo))
  /\ rpc_id Net (snd (calls Net transport this todo))
       = rpc_id Net this + Z.of_nat (List.length todo)
  /\ List.length (fst (calls Net transport this todo)) = List.length todo.
Proof.
  revert this. induction todo as [|[method params] rest IH]; intros this.
  - cbn. repeat split. lia.
  - cbn [calls call call_request].
    destruct (calls Net transport
                (mkRPCClient Net (rpc_options Net this) (rpc_network Net this)
                   (rpc_uri Net this) (rpc_apiKey Net this) (rpc_id Net this + 1)) rest)
      as [done last] eqn:E.
    specialize (IH (mkRPCClient Net (rpc_options Net this) (rpc_network Net this)
                      (rpc_uri Net this) (rpc_apiKey Net this) (rpc_id Net this + 1))).
    rewrite E in IH. cbn [fst snd rpc_id] in IH. destruct IH as (I1 & I2 & I3).
    cbn [fst snd map List.length rq_json_id seq].
    split; [ | split ].
    + rewrite I1. cbn [call_request fst rq_json_id].
      f_equal; [lia | ]. symmetry. apply map_seq_shift.
    + rewrite I2. lia.
    + rewrite I3. reflexivity.
Qed.

(** Calls do not move the client: every request is a POST of JSON to the
    client's uri, as user bitcoinrpc with the api key as password (the empty
    string when there is none), and the client keeps its uri, api key,
    options and network. *)
Theorem calls_keep_endpoint (this : RPCClient Net) (todo : list (JsVal * JsVal)) :
  Forall (fun d =>
            rq_method (fst d) = "POST"%string
            /\ rq_expect (fst d) = "json"%string
            /\ rq_uri (fst d) = rpc_uri Net this
            /\ rq_auth_username (fst d) = "bitcoinrpc"%string
            /\ rq_auth_password (fst d)
                 = if truthy (rpc_apiKey Net this) then rpc_apiKey Net this
                   else JStr "")
         (fst (calls Net transport this todo))
  /\ rpc_uri Net (snd (calls Net transport this todo)) = rpc_uri Net this
  /\ rpc_apiKey Net (snd (calls Net transport this todo)) = rpc_apiKey Net this
  /\ rpc_options Net (snd (calls Net transport this todo)) = rpc_options Net this
  /\ rpc_network Net (snd (calls Net transport this todo)) = rpc_network Net this.
Proof.
  revert this. induction todo as [|[method params] rest IH]; intros this.
  - cbn. repeat split. constructor.
  - cbn [calls call call_request].
    destruct (calls Net transport
                (mkRPCClient Net (rpc_options Net this) (rpc_network Net this)
                   (rpc_uri Net this) (rpc_apiKey Net this) (rpc_id Net this + 1)) rest)
      as [done last] eqn:E.
    specialize (IH (mkRPCClient Net (rpc_options Net this) (rpc_network Net this)
                      (rpc_uri Net this) (rpc_apiKey Net this) (rpc_id Net this + 1))).
    rewrite E in IH.
    cbn [fst snd rpc_uri rpc_apiKey rpc_options rpc_network] in IH.
    destruct IH as (I1 & I2 & I3 & I4 & I5).
    cbn [fst snd]. repeat split; try assumption.
    constructor; [ | exact I1 ].
    cbn [fst rq_method rq_expect rq_uri rq_auth_username rq_auth_password].
    repeat split.
Qed.

End RPCProperties.

Lemma RPCClient_new_uri_witness :
  RPCClient_new Z (fun _ => Ok 8332) (fun port => port) (JStr "")
    = Ok (mkRPCClient Z (JObj []) 8332 (JStr "http://localhost:8332") JUndefined 0)
  /\ RPCClient_new Z (fun _ => Ok 8332) (fun port => port) (JStr "http://node:1234")
       = Ok (mkRPCClient Z (JObj [("uri"%string, JStr "http://node:1234")]) 8332
               (JStr "http://node:1234") JUndefined 0).
Proof.
  split.
  - apply (proj1 (proj2 (RPCClient_new_uri Z (fun _ => Ok 8332) (fun port => port)
                           (JStr ""))) 8332); reflexivity.
  - apply (proj2 (proj2 (RPCClient_new_uri Z (fun _ => Ok 8332) (fun port => port)
                           (JStr "http://node:1234"))) 8332 "http://node:1234"%string);
      [reflexivity | reflexivity | discriminate].
Defined.

Lemma call_response_rejects_iff_witness :
  exists reason : JsVal,
    call_response
      (mkResponse 500 (JObj [("error"%string, JObj [("message"%string, JStr "boom")])]))
    = Rejected reason.
Proof.
  apply (proj2 (proj1 (call_response_rejects_iff
                         (mkResponse 500
                            (JObj [("error"%string,
                                    JObj [("message"%string, JStr "boom")])]))))).
  repeat split; discriminate.
Defined.

(* ------------------------------------------------------------------ *)
(** ** Runs of the RPC client *)

Example rpc_no_body_resolves :
  call_response (mkResponse 500 JNull) = Resolved JUndefined.
Proof. reflexivity. Qed.

Example rpc_bad_request_resolves :
  call_response
    (mkResponse 400
       (JObj [("result"%string, JNull);
              ("error"%string, JObj [("message"%string, JStr "Method not found")])]))
  = Resolved JNull.
Proof. reflexivity. Qed.

Example rpc_status_message :
  call_response (mkResponse 401 (JObj [])) = Rejected (JStr "Status code: 401").
Proof. reflexivity. Qed.

Example rpc_ids :
  map (fun d => rq_json_id (fst d))
    (fst (calls Z (fun _ => inr (JStr "ECONNREFUSED"))
            (mkRPCClient Z (JObj []) 8332 (JStr "http://localhost:8332") JUndefined 0)
            [(JStr "getinfo", JObj []); (JStr "getblockcount", JObj []);
             (JStr "stop", JObj [])]))
  = [0; 1; 2].
Proof. reflexivity. Qed.

Lemma getHash_iff_address_witness :
  getHash (W := Sample.world) (list byte) unit (fun a _ => Reference.addr_hash a)
    Sample.coinbase None = None.
Proof.
  apply (proj2 (getHash_iff_address (W := Sample.world) (list byte) unit
                  (fun a _ => Reference.addr_hash a) Sample.coinbase None None)).
  reflexivity.
Defined.

(** A spend that claims a redeem script, looked at with a coin that pays to
    a plain script: no redeem script. *)
Lemma getRedeem_coin_decides_witness :
  getRedeem (W := Sample.world) Sample.input
    (Some (Reference.mkCoin 1 (mkScript [x51]))) = None
  /\ getSubtype (W := Sample.world) Sample.input
       (Some (Reference.mkCoin 1 (mkScript [x51]))) = Ok None.
Proof.
  apply (proj1 (getRedeem_coin_decides (W := Sample.world) Sample.input
                  (Reference.mkCoin 1 (mkScript [x51])) eq_refl eq_refl)).
  reflexivity.
Defined.
